(** * Issue indexer coordination layer (package [issues])

    A shallow embedding of the Go file that wires the issue indexer:
    the [Indexer] interface, the [indexerHolder], the queue handler built
    in [InitIssueIndexer], the populator and the public mutation and
    search entry points.

    Conventions of the embedding
    - Go [int64] identifiers are [Z]; no arithmetic is performed on them.
    - A Go slice is a [list]; a [nil] slice and an empty slice are both
      [[]] (the code only ranges over them and takes [len]).
    - A Go [error] is [option error], [None] standing for [nil].
    - Calls that leave the function (backend, queue, database, context)
      are threaded through an explicit world state and recorded in a
      call log, so that "is called", "is not called" and "is called
      with" are statements about that log.
    - Calls to the [log] package have no influence on control flow and
      are left out. *)

From Stdlib Require Import String ZArith Bool Lia PeanoNat List.
Import ListNotations.

Local Open Scope Z_scope.
Local Open Scope list_scope.

Definition error := string.

(** Go's [int] has the width of the target's machine word; this
    repository builds for 32-bit ARM, where it has 32 bits.  Signed
    overflow wraps around. *)
Definition int_bits : Z := 32.

Definition int_min : Z := - 2 ^ (int_bits - 1).

Definition int_max : Z := 2 ^ (int_bits - 1) - 1.

Definition int_wrap (z : Z) : Z :=
  (z - int_min) mod 2 ^ int_bits + int_min.

(** [page++] on an [int]. *)
Definition int_succ (page : Z) : Z := int_wrap (page + 1).

(** ** Data model *)

(** [IndexerData]: the record stored on the queue. *)
Module IndexerData.
Record t := mk {
  ID : Z;
  RepoID : Z;
  Title : string;
  Content : string;
  Comments : list string;
  IsDelete : bool;
  IDs : list Z
}.
End IndexerData.

(** [Match]: one search hit.  The score is a float in the source; it is
    never inspected by this file, so it is kept abstract as a [Z]. *)
Module Match.
Record t := mk { ID : Z; Score : Z }.
End Match.

Module SearchResult.
Record t := mk { Total : Z; Hits : list Match.t }.
End SearchResult.

(** [issues_model.Comment], restricted to the fields read here. *)
Module Comment.
Record t := mk { Type_ : Z; Content : string }.
End Comment.

(** [issues_model.Issue], restricted to the fields read here. *)
Module Issue.
Record t := mk {
  ID : Z;
  RepoID : Z;
  Title : string;
  Content : string;
  Comments : list Comment.t
}.
End Issue.

(** [repo_model.Repository], restricted to the field read here. *)
Module Repository.
Record t := mk { ID : Z }.
End Repository.

(** [queue.Data] is [interface{}]: a datum either is a pointer to an
    [IndexerData] or is something the type assertion in the handler
    rejects.  What this file pushes are pointers to freshly built
    records, so a nil pointer is not modelled. *)
Inductive Datum :=
| DIndexerData (d : IndexerData.t)
| DOther (repr : string).

(** ** Call log *)

Inductive Event :=
| EvDelete (ids : list Z) (err : option error)
| EvPing (alive : bool)
| EvIndex (batch : list IndexerData.t) (err : option error)
| EvSearch (kw : string) (repoIDs : list Z) (limit start : Z)
| EvPush (d : Datum) (err : option error)
| EvCtxDone (done : bool)
| EvSearchRepositoryByName (page : Z) (found : nat) (err : option error)
| EvIssues (repoID : Z) (err : option error)
| EvLoadDiscussComments (err : option error)
| EvGetIssueIDsByRepoID (repoID : Z) (err : option error).

(** A function that may panic instead of returning. *)
Inductive outcome (A : Type) :=
| Returned (a : A)
| Panicked.
Arguments Returned {A} a.
Arguments Panicked {A}.

Section World.

(** Everything outside this file that its functions talk to: the
    index backend, the queue, the database and the shutdown context. *)
Variable W : Type.

(** *** The effect monad: world state in, result, world state and the
    calls made out. *)
Definition Eff (A : Type) : Type := W -> A * W * list Event.

Definition ret {A} (a : A) : Eff A := fun w => (a, w, []).

Definition bind {A B} (m : Eff A) (k : A -> Eff B) : Eff B :=
  fun w =>
    let '(a, w1, l1) := m w in
    let '(b, w2, l2) := k a w1 in
    (b, w2, l1 ++ l2).

Notation "x <- m ;; k" := (bind m (fun x => k))
  (at level 61, m at next level, right associativity).
Notation "' pat <- m ;; k" := (bind m (fun x => match x with pat => k end))
  (at level 61, pat pattern, m at next level, right associativity).

Definition result {A} (r : A * W * list Event) : A := fst (fst r).
Definition world {A} (r : A * W * list Event) : W := snd (fst r).
Definition calls {A} (r : A * W * list Event) : list Event := snd r.

(** *** Interfaces *)

(** [Indexer]: the methods this file calls on a backend.  ([Init],
    [SetAvailabilityChangeCallback] and [Close] are only used by the
    start-up goroutine, which is not modelled.) *)
Record Indexer := {
  Ping : W -> bool * W;
  Index : list IndexerData.t -> W -> option error * W;
  Delete : list Z -> W -> option error * W;
  Search : string -> list Z -> Z -> Z -> W ->
           (option SearchResult.t * option error) * W
}.

(** [queue.Queue], restricted to [Push]. *)
Record Queue := {
  Push : Datum -> W -> option error * W
}.

(** The data-access functions and the context this file uses. *)
Record Env := {
  ctxDone : W -> bool;
  SearchRepositoryByName :
    Z -> W -> (list Repository.t * option error) * W;
  Issues : Z -> W -> (list Issue.t * option error) * W;
  LoadDiscussComments :
    list Issue.t -> W -> (list Issue.t * option error) * W;
  GetIssueIDsByRepoID : Z -> W -> (list Z * option error) * W
}.

Definition call_Delete (ix : Indexer) (ids : list Z) : Eff (option error) :=
  fun w => let '(e, w1) := Delete ix ids w in (e, w1, [EvDelete ids e]).

Definition call_Ping (ix : Indexer) : Eff bool :=
  fun w => let '(b, w1) := Ping ix w in (b, w1, [EvPing b]).

Definition call_Index (ix : Indexer) (batch : list IndexerData.t)
  : Eff (option error) :=
  fun w => let '(e, w1) := Index ix batch w in (e, w1, [EvIndex batch e]).

Definition call_Search (ix : Indexer) (kw : string) (repoIDs : list Z)
           (limit start : Z)
  : Eff (option SearchResult.t * option error) :=
  fun w => let '(r, w1) := Search ix kw repoIDs limit start w in
           (r, w1, [EvSearch kw repoIDs limit start]).

Definition call_Push (q : Queue) (d : Datum) : Eff (option error) :=
  fun w => let '(e, w1) := Push q d w in (e, w1, [EvPush d e]).

Definition call_ctxDone (env : Env) : Eff bool :=
  fun w => (ctxDone env w, w, [EvCtxDone (ctxDone env w)]).

Definition call_SearchRepositoryByName (env : Env) (page : Z)
  : Eff (list Repository.t * option error) :=
  fun w => let '(r, w1) := SearchRepositoryByName env page w in
           (r, w1, [EvSearchRepositoryByName page (length (fst r)) (snd r)]).

Definition call_Issues (env : Env) (repoID : Z)
  : Eff (list Issue.t * option error) :=
  fun w => let '(r, w1) := Issues env repoID w in
           (r, w1, [EvIssues repoID (snd r)]).

Definition call_LoadDiscussComments (env : Env) (iss : list Issue.t)
  : Eff (list Issue.t * option error) :=
  fun w => let '(r, w1) := LoadDiscussComments env iss w in
           (r, w1, [EvLoadDiscussComments (snd r)]).

Definition call_GetIssueIDsByRepoID (env : Env) (repoID : Z)
  : Eff (list Z * option error) :=
  fun w => let '(r, w1) := GetIssueIDsByRepoID env repoID w in
           (r, w1, [EvGetIssueIDsByRepoID repoID (snd r)]).

(** ** The queue handler of [InitIssueIndexer] *)

(** The [for _, datum := range data] loop; [iData] and [unhandled]
    are the two slices it appends to. *)
Fixpoint handler_loop (ix : Indexer) (data : list Datum)
         (iData : list IndexerData.t) (unhandled : list Datum)
  : Eff (list IndexerData.t * list Datum) :=
  match data with
  | [] => ret (iData, unhandled)
  | datum :: rest =>
      match datum with
      | DOther _ => handler_loop ix rest iData unhandled
      | DIndexerData indexerData =>
          if IndexerData.IsDelete indexerData then
            err <- call_Delete ix (IndexerData.IDs indexerData) ;;
            match err with
            | Some _ =>
                alive <- call_Ping ix ;;
                if alive then handler_loop ix rest iData unhandled
                else handler_loop ix rest iData (unhandled ++ [datum])
            | None => handler_loop ix rest iData unhandled
            end
          else handler_loop ix rest (iData ++ [indexerData]) unhandled
      end
  end.

(** [indexer] is what [holder.get()] returned. *)
Definition handler (indexer : option Indexer) (data : list Datum)
  : Eff (list Datum) :=
  match indexer with
  | None => ret data
  | Some ix =>
      '(iData, unhandled) <- handler_loop ix data [] [] ;;
      if (0 <? length unhandled)%nat then
        ret (unhandled ++ map DIndexerData iData)
      else
        err <- call_Index ix iData ;;
        match err with
        | Some _ =>
            alive <- call_Ping ix ;;
            if alive then ret []
            else ret (unhandled ++ map DIndexerData iData)
        | None => ret []
        end
  end.

(** ** The populator and the mutation entry points *)

(** [issues_model.CommentTypeComment]: the type of a regular comment.
    The constant is declared in package [issues_model], outside this
    file, and is taken as a parameter. *)
Variable CommentTypeComment : Z.

(** The [for _, comment := range issue.Comments] loop of
    [UpdateIssueIndexer]; [comments] is the slice it appends to. *)
Fixpoint collect_comments (cs : list Comment.t) (comments : list string)
  : list string :=
  match cs with
  | [] => comments
  | comment :: rest =>
      if Comment.Type_ comment =? CommentTypeComment
      then collect_comments rest (comments ++ [Comment.Content comment])
      else collect_comments rest comments
  end.

Definition UpdateIssueIndexer (q : Queue) (issue : Issue.t) : Eff unit :=
  let comments := collect_comments (Issue.Comments issue) [] in
  let indexerData :=
    {| IndexerData.ID := Issue.ID issue;
       IndexerData.RepoID := Issue.RepoID issue;
       IndexerData.Title := Issue.Title issue;
       IndexerData.Content := Issue.Content issue;
       IndexerData.Comments := comments;
       IndexerData.IsDelete := false;
       IndexerData.IDs := [] |} in
  _ <- call_Push q (DIndexerData indexerData) ;;
  ret tt.

(** The [for _, issue := range is] loop of [UpdateRepoIndexer]. *)
Fixpoint update_issues (q : Queue) (iss : list Issue.t) : Eff unit :=
  match iss with
  | [] => ret tt
  | issue :: rest =>
      _ <- UpdateIssueIndexer q issue ;;
      update_issues q rest
  end.

(** [LoadDiscussComments] fills the [Comments] field of the issues in
    place; the model returns the issues as they are afterwards. *)
Definition UpdateRepoIndexer (env : Env) (q : Queue) (repo : Repository.t)
  : Eff unit :=
  '(iss, err) <- call_Issues env (Repository.ID repo) ;;
  match err with
  | Some _ => ret tt
  | None =>
      '(iss', err) <- call_LoadDiscussComments env iss ;;
      match err with
      | Some _ => ret tt
      | None => update_issues q iss'
      end
  end.

(** The [for _, repo := range repos] loop of [populateIssueIndexer];
    the result is [true] when the loop left the function through the
    [ctx.Done()] case. *)
Fixpoint populate_repos (env : Env) (q : Queue) (repos : list Repository.t)
  : Eff bool :=
  match repos with
  | [] => ret false
  | repo :: rest =>
      done <- call_ctxDone env ;;
      if done then ret true
      else
        _ <- UpdateRepoIndexer env q repo ;;
        populate_repos env q rest
  end.

(** [populateIssueIndexer]: the [for page := 1; ; page++] loop has no
    bound, so the model takes the number of iterations it may run;
    [None] means that number was used up, [Some tt] that the function
    returned.  A failed page fetch reaches [continue], which runs
    [page++].  [page] is a Go [int]: it is a [Z] within the range
    of [int], and [page++] wraps around. *)
Fixpoint populate_pages (env : Env) (q : Queue) (fuel : nat) (page : Z)
  : Eff (option unit) :=
  match fuel with
  | O => ret None
  | S fuel' =>
      done <- call_ctxDone env ;;
      if done then ret (Some tt)
      else
        '(repos, err) <- call_SearchRepositoryByName env page ;;
        match err with
        | Some _ => populate_pages env q fuel' (int_succ page)
        | None =>
            if (length repos =? 0)%nat then ret (Some tt)
            else
              stopped <- populate_repos env q repos ;;
              if stopped then ret (Some tt)
              else populate_pages env q fuel' (int_succ page)
        end
  end.

Definition populateIssueIndexer (env : Env) (q : Queue) (fuel : nat)
  : Eff (option unit) :=
  populate_pages env q fuel 1.

Definition DeleteRepoIssueIndexer (env : Env) (q : Queue)
           (repo : Repository.t) : Eff unit :=
  '(ids, err) <- call_GetIssueIDsByRepoID env (Repository.ID repo) ;;
  match err with
  | Some _ => ret tt
  | None =>
      if (length ids =? 0)%nat then ret tt
      else
        let indexerData :=
          {| IndexerData.ID := 0;
             IndexerData.RepoID := 0;
             IndexerData.Title := EmptyString;
             IndexerData.Content := EmptyString;
             IndexerData.Comments := [];
             IndexerData.IsDelete := true;
             IndexerData.IDs := ids |} in
        _ <- call_Push q (DIndexerData indexerData) ;;
        ret tt
  end.

(** ** Search *)

(** The [for _, r := range res.Hits] loop of [SearchIssuesByKeyword]. *)
Fixpoint collect_ids (hits : list Match.t) (issueIDs : list Z) : list Z :=
  match hits with
  | [] => issueIDs
  | r :: rest => collect_ids rest (issueIDs ++ [Match.ID r])
  end.

(** [indexer] is what [holder.get()] returned.  A backend that hands
    back a nil result together with a nil error makes [res.Hits]
    dereference nil, which panics. *)
Definition SearchIssuesByKeyword (indexer : option Indexer)
           (repoIDs : list Z) (keyword : string)
  : Eff (outcome (list Z * option error)) :=
  match indexer with
  | None => ret (Returned ([], Some "unable to get issue indexer"%string))
  | Some ix =>
      '(res, err) <- call_Search ix keyword repoIDs 50 0 ;;
      match err with
      | Some e => ret (Returned ([], Some e))
      | None =>
          match res with
          | None => ret Panicked
          | Some r =>
              ret (Returned (collect_ids (SearchResult.Hits r) [], None))
          end
      end
  end.

Definition IsAvailable (indexer : option Indexer) : Eff bool :=
  match indexer with
  | None => ret false
  | Some ix => call_Ping ix
  end.

End World.

Arguments ret {W A} a.
Arguments bind {W A B} m k.
Arguments result {W A} r.
Arguments world {W A} r.
Arguments calls {W A} r.
Arguments Ping {W} i.
Arguments Index {W} i.
Arguments Delete {W} i.
Arguments Search {W} i.
Arguments Push {W} q.
Arguments ctxDone {W} e.
Arguments SearchRepositoryByName {W} e.
Arguments Issues {W} e.
Arguments LoadDiscussComments {W} e.
Arguments GetIssueIDsByRepoID {W} e.
Arguments handler_loop {W} ix data iData unhandled.
Arguments handler {W} indexer data.
Arguments UpdateIssueIndexer {W} CommentTypeComment q issue.
Arguments update_issues {W} CommentTypeComment q iss.
Arguments UpdateRepoIndexer {W} CommentTypeComment env q repo.
Arguments populate_repos {W} CommentTypeComment env q repos.
Arguments populate_pages {W} CommentTypeComment env q fuel page.
Arguments populateIssueIndexer {W} CommentTypeComment env q fuel.
Arguments DeleteRepoIssueIndexer {W} env q repo.
Arguments SearchIssuesByKeyword {W} indexer repoIDs keyword.
Arguments IsAvailable {W} indexer.

(** ** The indexer holder

    [indexerHolder] guards [indexer] and [cancelled] with a
    read-write mutex and parks readers on a condition variable built on
    the read side of that mutex.  The model is a transition system
    whose steps are the critical sections of the three methods:
    - [set] and [cancel] run under the write lock and are one step each;
    - [get] tests and, if it has to wait, registers on the condition
      variable before the read lock is released, so test-and-park is
      one step; a parked goroutine only leaves [cond.Wait] after a
      [Broadcast], then re-acquires the read lock and returns
      [h.indexer] as it is at that moment (the test is an [if], the
      condition is not looked at again): that is the second step of a
      [get] that had to wait. *)
Module Holder.
Section Holder.

(** The type of backends; an interface value may be nil. *)
Variable I : Type.

Definition goroutine := nat.

Record indexerHolder := {
  indexer : option I;
  cancelled : bool;
  (** goroutines inside [cond.Wait], not signalled yet *)
  waiting : list goroutine;
  (** goroutines signalled by a [Broadcast] that have not yet
      returned from [get] *)
  woken : list goroutine
}.

Definition newIndexerHolder : indexerHolder :=
  {| indexer := None; cancelled := false; waiting := []; woken := [] |}.

Definition Broadcast (h : indexerHolder) : indexerHolder :=
  {| indexer := indexer h; cancelled := cancelled h;
     waiting := []; woken := woken h ++ waiting h |}.

Definition cancel (h : indexerHolder) : indexerHolder :=
  Broadcast {| indexer := indexer h; cancelled := true;
               waiting := waiting h; woken := woken h |}.

Definition set (ix : option I) (h : indexerHolder) : indexerHolder :=
  Broadcast {| indexer := ix; cancelled := cancelled h;
               waiting := waiting h; woken := woken h |}.

Inductive get_result :=
| GetReturns (ix : option I)
| GetWaits.

(** First step of [get] by goroutine [g]. *)
Definition get (g : goroutine) (h : indexerHolder)
  : indexerHolder * get_result :=
  match indexer h, cancelled h with
  | None, false =>
      ({| indexer := indexer h; cancelled := cancelled h;
          waiting := waiting h ++ [g]; woken := woken h |}, GetWaits)
  | _, _ => (h, GetReturns (indexer h))
  end.

(** Second step of a [get] that waited: [cond.Wait] comes back only
    for a goroutine that was signalled. *)
Definition get_resume (g : goroutine) (h : indexerHolder)
  : indexerHolder * get_result :=
  if existsb (Nat.eqb g) (woken h) then
    ({| indexer := indexer h; cancelled := cancelled h;
        waiting := waiting h;
        woken := List.remove Nat.eq_dec g (woken h) |},
     GetReturns (indexer h))
  else (h, GetWaits).

(** What the goroutines of the process do to the holder. *)
Inductive op :=
| OpGet (g : goroutine)
| OpResume (g : goroutine)
| OpSet (ix : option I)
| OpCancel.

(** One step; the second component lists the [get] calls that
    returned in this step, with the value they returned. *)
Definition step (h : indexerHolder) (o : op)
  : indexerHolder * list (goroutine * option I) :=
  match o with
  | OpGet g =>
      match get g h with
      | (h', GetReturns ix) => (h', [(g, ix)])
      | (h', GetWaits) => (h', [])
      end
  | OpResume g =>
      match get_resume g h with
      | (h', GetReturns ix) => (h', [(g, ix)])
      | (h', GetWaits) => (h', [])
      end
  | OpSet ix => (set ix h, [])
  | OpCancel => (cancel h, [])
  end.

Fixpoint run (h : indexerHolder) (ops : list op)
  : indexerHolder * list (goroutine * option I) :=
  match ops with
  | [] => (h, [])
  | o :: rest =>
      let '(h1, r1) := step h o in
      let '(h2, r2) := run h1 rest in
      (h2, r1 ++ r2)
  end.

Definition is_set (o : op) : bool :=
  match o with OpSet _ => true | _ => false end.

Definition is_cancel (o : op) : bool :=
  match o with OpCancel => true | _ => false end.

Definition is_write (o : op) : bool := is_set o || is_cancel o.

Definition is_quiet (o : op) : bool := negb (is_write o).

(** The values goroutine [g] got back from [get]. *)
Definition returns_of (g : goroutine) (rs : list (goroutine * option I))
  : list (option I) :=
  map snd (filter (fun r => Nat.eqb (fst r) g) rs).

End Holder.
End Holder.

Arguments Holder.newIndexerHolder {I}.
Arguments Holder.GetWaits {I}.
Arguments Holder.OpGet {I} g.
Arguments Holder.OpResume {I} g.
Arguments Holder.OpCancel {I}.

(** ** Vocabulary of the statements *)

Definition is_delete_datum (x : Datum) : bool :=
  match x with
  | DIndexerData d => IndexerData.IsDelete d
  | DOther _ => false
  end.

(** The records of a batch the handler accumulates for [Index]. *)
Fixpoint upsert_records (data : list Datum) : list IndexerData.t :=
  match data with
  | [] => []
  | DIndexerData d :: rest =>
      if IndexerData.IsDelete d then upsert_records rest
      else d :: upsert_records rest
  | DOther _ :: rest => upsert_records rest
  end.

(** The delete records of a batch. *)
Fixpoint delete_records (data : list Datum) : list IndexerData.t :=
  match data with
  | [] => []
  | DIndexerData d :: rest =>
      if IndexerData.IsDelete d then d :: delete_records rest
      else delete_records rest
  | DOther _ :: rest => delete_records rest
  end.

(** The id lists the backend's [Delete] was called with, in call order. *)
Fixpoint delete_calls (log : list Event) : list (list Z) :=
  match log with
  | [] => []
  | EvDelete ids _ :: rest => ids :: delete_calls rest
  | _ :: rest => delete_calls rest
  end.

(** The batches the backend's [Index] was called with, in call order. *)
Fixpoint index_calls (log : list Event) : list (list IndexerData.t) :=
  match log with
  | [] => []
  | EvIndex batch _ :: rest => batch :: index_calls rest
  | _ :: rest => index_calls rest
  end.

(** Reading the call log of a handler run next to its batch: the delete
    records whose [Delete] call failed and whose following [Ping]
    answered [false].  Each delete record accounts for one [Delete]
    call, followed by a [Ping] call when the [Delete] failed. *)
Fixpoint dead_deletes (data : list Datum) (log : list Event) : list Datum :=
  match data with
  | [] => []
  | DIndexerData d :: rest =>
      if IndexerData.IsDelete d then
        match log with
        | EvDelete _ None :: log' => dead_deletes rest log'
        | EvDelete _ (Some _) :: EvPing alive :: log' =>
            if alive then dead_deletes rest log'
            else DIndexerData d :: dead_deletes rest log'
        | _ => []
        end
      else dead_deletes rest log
  | DOther _ :: rest => dead_deletes rest log
  end.

(** Some [Delete] call failed (whatever the following [Ping] said). *)
Fixpoint some_delete_failed (log : list Event) : bool :=
  match log with
  | [] => false
  | EvDelete _ (Some _) :: _ => true
  | _ :: rest => some_delete_failed rest
  end.

(** Some [Delete] call failed and the [Ping] right after it answered
    [false]. *)
Fixpoint some_delete_failed_dead (log : list Event) : bool :=
  match log with
  | [] => false
  | EvDelete _ (Some _) :: (EvPing false :: _) => true
  | _ :: rest => some_delete_failed_dead rest
  end.

(** The data pushed to the queue, in push order. *)
Fixpoint pushed (log : list Event) : list Datum :=
  match log with
  | [] => []
  | EvPush d _ :: rest => d :: pushed rest
  | _ :: rest => pushed rest
  end.

(** The arguments [(limit, start)] of the backend's [Search] calls. *)
Fixpoint search_windows (log : list Event) : list (Z * Z) :=
  match log with
  | [] => []
  | EvSearch _ _ limit start :: rest => (limit, start) :: search_windows rest
  | _ :: rest => search_windows rest
  end.

(** The three ways a handler run with a backend can end, given the log
    [l1] and the [unhandled] slice its loop produced: the residual and
    the full call log. *)
Inductive handler_end (data : list Datum) (l1 : list Event)
          (unhandled : list Datum) : list Datum -> list Event -> Prop :=
| end_short_circuit :
    unhandled <> [] ->
    handler_end data l1 unhandled
      (unhandled ++ map DIndexerData (upsert_records data)) l1
| end_indexed :
    unhandled = [] ->
    handler_end data l1 unhandled
      [] (l1 ++ [EvIndex (upsert_records data) None])
| end_index_failed (e : error) (alive : bool) :
    unhandled = [] ->
    handler_end data l1 unhandled
      (if alive then [] else map DIndexerData (upsert_records data))
      (l1 ++ [EvIndex (upsert_records data) (Some e); EvPing alive]).

(** A record shaped as a single-item upsert for [issue]. *)
Definition upsert_shaped (issue : Issue.t) (x : Datum) : Prop :=
  match x with
  | DIndexerData d =>
      IndexerData.IsDelete d = false /\
      IndexerData.ID d = Issue.ID issue /\
      IndexerData.IDs d = []
  | DOther _ => False
  end.

(** A record shaped as a bulk delete: the flag, a non-empty id list and
    every single-item field at its zero value. *)
Definition bulk_delete_shaped (x : Datum) : Prop :=
  match x with
  | DIndexerData d =>
      IndexerData.IsDelete d = true /\
      IndexerData.IDs d <> [] /\
      IndexerData.ID d = 0 /\
      IndexerData.RepoID d = 0 /\
      IndexerData.Title d = EmptyString /\
      IndexerData.Content d = EmptyString /\
      IndexerData.Comments d = []
  | DOther _ => False
  end.

(** The populator's log discipline: a page fetch and the first call made
    for a repository ([Issues]) come right after a [ctx.Done()] poll that
    answered [false], and a poll that answered [true] is the last call.
    [polled] tells whether the previous call was such a poll. *)
Fixpoint polled_before_work (polled : bool) (log : list Event) : bool :=
  match log with
  | [] => true
  | EvCtxDone done :: rest =>
      if done then match rest with [] => true | _ => false end
      else polled_before_work true rest
  | EvSearchRepositoryByName _ _ _ :: rest =>
      polled && polled_before_work false rest
  | EvIssues _ _ :: rest =>
      polled && polled_before_work false rest
  | _ :: rest => polled_before_work false rest
  end.

(** The bodies of the regular comments among [cs], in order. *)
Definition regular_comment_bodies (CommentTypeComment : Z)
           (cs : list Comment.t) : list string :=
  map Comment.Content
      (filter (fun c => Comment.Type_ c =? CommentTypeComment) cs).

(** Calls that are neither a [ctx.Done()] poll, nor a page fetch, nor
    the [Issues] call that opens the work on a repository. *)
Definition inner_call (e : Event) : bool :=
  match e with
  | EvCtxDone _ | EvSearchRepositoryByName _ _ _ | EvIssues _ _ => false
  | _ => true
  end.

(** A page fetch, or the [Issues] call that opens the work on a
    repository. *)
Definition work_call (e : Event) : bool :=
  match e with
  | EvSearchRepositoryByName _ _ _ | EvIssues _ _ => true
  | _ => false
  end.


(** ** A scripted world

    A small concrete world on which the functions above can be run:
    the backend answers [Delete], [Ping] and [Index] from scripts (and
    succeeds once a script is used up), [Search] returns the requested
    window of a stored hit list, the queue keeps what is pushed, and the
    tables of the database are plain lists. *)
Module Script.

Record t := mk {
  deletes : list (option error);
  pings : list bool;
  indexes : list (option error);
  stored : list Match.t;
  queue : list Datum;
  shutdown : bool;
  pages : list (list Repository.t);
  issues : list Issue.t
}.

Definition next {A} (default : A) (l : list A) : A * list A :=
  match l with
  | [] => (default, [])
  | x :: rest => (x, rest)
  end.

Definition indexer : Indexer t := {|
  Ping := fun w =>
    let '(b, rest) := next true (pings w) in
    (b, mk (deletes w) rest (indexes w) (stored w) (queue w)
           (shutdown w) (pages w) (issues w));
  Index := fun _ w =>
    let '(e, rest) := next None (indexes w) in
    (e, mk (deletes w) (pings w) rest (stored w) (queue w)
           (shutdown w) (pages w) (issues w));
  Delete := fun _ w =>
    let '(e, rest) := next None (deletes w) in
    (e, mk rest (pings w) (indexes w) (stored w) (queue w)
           (shutdown w) (pages w) (issues w));
  Search := fun _ _ limit start w =>
    ((Some (SearchResult.mk
              (Z.of_nat (length (stored w)))
              (firstn (Z.to_nat limit) (skipn (Z.to_nat start) (stored w)))),
      None), w)
|}.

Definition the_queue : Queue t := {|
  Push := fun d w =>
    (None, mk (deletes w) (pings w) (indexes w) (stored w) (queue w ++ [d])
              (shutdown w) (pages w) (issues w))
|}.

Definition env : Env t := {|
  ctxDone := shutdown;
  SearchRepositoryByName := fun page w =>
    ((nth (Z.to_nat (page - 1)) (pages w) [], None), w);
  Issues := fun repoID w =>
    ((filter (fun i => Issue.RepoID i =? repoID) (issues w), None), w);
  LoadDiscussComments := fun iss w => ((iss, None), w);
  GetIssueIDsByRepoID := fun repoID w =>
    ((map Issue.ID (filter (fun i => Issue.RepoID i =? repoID) (issues w)),
      None), w)
|}.

Definition quiet : t := mk [] [] [] [] [] false [] [].

Definition with_backend (ds : list (option error)) (ps : list bool)
           (xs : list (option error)) : t :=
  mk ds ps xs [] [] false [] [].

Definition upsert (id : Z) : IndexerData.t :=
  IndexerData.mk id 7 "title" "body" [] false [].

Definition bulk_delete (ids : list Z) : IndexerData.t :=
  IndexerData.mk 0 0 EmptyString EmptyString [] true ids.

Definition comment (type : Z) (body : string) : Comment.t :=
  Comment.mk type body.

(** Issue 42 of repository 7 with a regular comment (type 0) between
    two comments of other types, and issue 43 of the same repository. *)
Definition issue42 : Issue.t :=
  Issue.mk 42 7 "fix login bug" "steps to reproduce"
           [comment 1 "reopened"; comment 0 "see patch attached";
            comment 21 "review"].

Definition issue43 : Issue.t :=
  Issue.mk 43 7 "typo" "in the readme" [comment 0 "thanks"].

(** Two pages of repositories, 7 and 8 on the first, 9 on the second,
    with the two issues above. *)
Definition populated (stop : bool) : t :=
  mk [] [] [] [] [] stop
     [[Repository.mk 7; Repository.mk 8]; [Repository.mk 9]]
     [issue42; issue43].

(** Sixty stored hits, ids 1 to 60. *)
Definition sixty_hits : t :=
  mk [] [] [] (map (fun n => Match.mk (Z.of_nat n) 0) (seq 1 60)) []
     false [] [].

(** A batch of five upsert records. *)
Definition five_upserts : list Datum :=
  map (fun i => DIndexerData (upsert i)) [1; 2; 3; 4; 5].

(** A batch of one bulk delete followed by one upsert. *)
Definition delete_then_upsert : list Datum :=
  [DIndexerData (bulk_delete [1; 2]); DIndexerData (upsert 5)].

(** A batch of two bulk deletes around one upsert. *)
Definition two_deletes : list Datum :=
  [DIndexerData (bulk_delete [1; 2]); DIndexerData (upsert 5);
   DIndexerData (bulk_delete [3])].

End Script.

(** ** Further vocabulary *)

Definition is_indexer_data (x : Datum) : bool :=
  match x with
  | DIndexerData _ => true
  | DOther _ => false
  end.

(** The number of [Delete] and [Index] calls that returned an error. *)
Fixpoint failures (log : list Event) : nat :=
  match log with
  | [] => O
  | EvDelete _ (Some _) :: rest => S (failures rest)
  | EvIndex _ (Some _) :: rest => S (failures rest)
  | _ :: rest => failures rest
  end.

(** The number of [Ping] calls. *)
Fixpoint pings (log : list Event) : nat :=
  match log with
  | [] => O
  | EvPing _ :: rest => S (pings rest)
  | _ :: rest => pings rest
  end.

(** A call on the index backend. *)
Definition backend_call (e : Event) : bool :=
  match e with
  | EvDelete _ _ | EvPing _ | EvIndex _ _ | EvSearch _ _ _ _ => true
  | _ => false
  end.

(** The page numbers [SearchRepositoryByName] was called with, in call
    order. *)
Fixpoint fetched_pages (log : list Event) : list Z :=
  match log with
  | [] => []
  | EvSearchRepositoryByName page _ _ :: rest => page :: fetched_pages rest
  | _ :: rest => fetched_pages rest
  end.

(** The [n] successive values of a page counter that starts at [start]
    and goes through [page++]. *)
Fixpoint consecutive (start : Z) (n : nat) : list Z :=
  match n with
  | O => []
  | S n' => start :: consecutive (int_succ start) n'
  end.

(** The repository ids [Issues] was called with, in call order. *)
Fixpoint issues_calls (log : list Event) : list Z :=
  match log with
  | [] => []
  | EvIssues repoID _ :: rest => repoID :: issues_calls rest
  | _ :: rest => issues_calls rest
  end.

(** The record [UpdateIssueIndexer] builds for an issue. *)
Definition upsert_of (CommentTypeComment : Z) (issue : Issue.t)
  : IndexerData.t :=
  {| IndexerData.ID := Issue.ID issue;
     IndexerData.RepoID := Issue.RepoID issue;
     IndexerData.Title := Issue.Title issue;
     IndexerData.Content := Issue.Content issue;
     IndexerData.Comments :=
       regular_comment_bodies CommentTypeComment (Issue.Comments issue);
     IndexerData.IsDelete := false;
     IndexerData.IDs := [] |}.

(** A [set] call that stores a nil backend. *)
Definition is_set_nil {I : Type} (o : Holder.op I) : bool :=
  match o with
  | Holder.OpSet _ None => true
  | _ => false
  end.

(** Nobody is parked on the condition variable unless the holder is
    still empty and not cancelled. *)
Definition nobody_parked_once_settled {I : Type}
           (h : Holder.indexerHolder I) : Prop :=
  (Holder.indexer I h = None /\ Holder.cancelled I h = false) \/
  Holder.waiting I h = [].

(** The calls [UpdateRepoIndexer] makes after its [Issues] call. *)
Definition repo_work_call (e : Event) : bool :=
  match e with
  | EvLoadDiscussComments _ | EvPush _ _ => true
  | _ => false
  end.

(** ** Start-up: the two switches of [InitIssueIndexer]

    [InitIssueIndexer] switches twice on [setting.Indexer.IssueType]:
    once, before anything else, to create the queue, and once, in the
    goroutine it starts, to build the backend and publish it through
    the holder.  The model keeps these two decisions and what they do
    to the holder; [log.Fatal] ends the process, so a fatal path stops
    where it is.  The goroutine's later steps (starting the queue,
    running the populator, the start-up timeout) are scheduling and are
    not part of it. *)
Module Startup.
Section Startup.

Variable I : Type.

(** What [issueIndexerQueue] becomes; [NoQueue] is the case in which
    [queue.CreateQueue] returned nil, which is fatal. *)
Inductive queue_kind :=
| HandlerQueue
| DummyQueue
| NoQueue.

(** The first switch.  [created] tells whether [queue.CreateQueue]
    returned a queue. *)
Definition create_queue (IssueType : string) (created : bool) : queue_kind :=
  if String.eqb IssueType "bleve" then
    if created then HandlerQueue else NoQueue
  else if String.eqb IssueType "elasticsearch" then
    if created then HandlerQueue else NoQueue
  else DummyQueue.

(** What building and initialising the embedded index did: [Init]
    returned, or one of the two panicked (the [bleve] case recovers
    from panics). *)
Inductive bleve_result :=
| BleveInit (existed : bool) (err : option error)
| BlevePanic.

Record started := {
  holder : Holder.indexerHolder I;
  populate : bool;
  fatal : bool
}.

(** The second switch.  [bleve] says what the embedded index did;
    [es_new] is the error of [NewElasticSearchIndexer] and [es_init]
    the results of its [Init]; [backend] is the backend that was
    built. *)
Definition init_backend (IssueType : string) (bleve : bleve_result)
           (es_new : option error) (es_init : bool * option error)
           (backend : I) (h : Holder.indexerHolder I) : started :=
  if String.eqb IssueType "bleve" then
    match bleve with
    | BlevePanic =>
        {| holder := Holder.cancel I h; populate := false; fatal := true |}
    | BleveInit existed (Some _) =>
        {| holder := Holder.cancel I h; populate := false; fatal := true |}
    | BleveInit existed None =>
        {| holder := Holder.set I (Some backend) h;
           populate := negb existed; fatal := false |}
    end
  else if String.eqb IssueType "elasticsearch" then
    match es_new with
    | Some _ => {| holder := h; populate := false; fatal := true |}
    | None =>
        match es_init with
        | (existed, Some _) =>
            {| holder := h; populate := false; fatal := true |}
        | (existed, None) =>
            {| holder := Holder.set I (Some backend) h;
               populate := negb existed; fatal := false |}
        end
    end
  else if String.eqb IssueType "db" then
    {| holder := Holder.set I (Some backend) h;
       populate := false; fatal := false |}
  else
    {| holder := Holder.cancel I h; populate := false; fatal := true |}.

End Startup.
End Startup.

(** ** A failing world

    The scripted world again, with a context that is never cancelled,
    a database whose every call fails and a queue that refuses every
    push. *)
Module Faulty.

Definition env : Env Script.t := {|
  ctxDone := fun _ => false;
  SearchRepositoryByName := fun page w => (([], Some "db down"%string), w);
  Issues := fun repoID w => (([], Some "db down"%string), w);
  LoadDiscussComments := fun iss w => ((iss, Some "db down"%string), w);
  GetIssueIDsByRepoID := fun repoID w => (([], Some "db down"%string), w)
|}.

Definition the_queue : Queue Script.t := {|
  Push := fun d w => (Some "queue full"%string, w)
|}.

End Faulty.

(** ** A backend that ignores the limit

    The scripted backend again, except that [Search] returns every
    stored hit whatever limit and offset it is given. *)
Module Overfull.

Definition indexer : Indexer Script.t := {|
  Ping := Ping Script.indexer;
  Index := Index Script.indexer;
  Delete := Delete Script.indexer;
  Search := fun _ _ _ _ w =>
    ((Some (SearchResult.mk (Z.of_nat (length (Script.stored w)))
                            (Script.stored w)),
      None), w)
|}.

End Overfull.

(** * Properties *)

(** ** The queue handler *)

Section HandlerFacts.

Context {W : Type}.
Variable ix : Indexer W.

Lemma upsert_records_app (xs ys : list Datum) :
  upsert_records (xs ++ ys) = upsert_records xs ++ upsert_records ys.
Proof.
  induction xs as [|[d|r] xs IH]; simpl; auto.
  destruct (IndexerData.IsDelete d); simpl; congruence.
Qed.

(** What the loop leaves in its two slices and in the call log.  The
    log is read with an arbitrary continuation [tail] appended, which
    is how it appears inside the log of the whole handler. *)
Lemma handler_loop_spec (data : list Datum) :
  forall iData unhandled w iData' unhandled' w' log,
    handler_loop ix data iData unhandled w = (iData', unhandled', w', log) ->
    iData' = iData ++ upsert_records data /\
    delete_calls log = map IndexerData.IDs (delete_records data) /\
    index_calls log = [] /\
    forall tail,
      unhandled' = unhandled ++ dead_deletes data (log ++ tail) /\
      delete_calls (log ++ tail) = delete_calls log ++ delete_calls tail /\
      index_calls (log ++ tail) = index_calls tail /\
      some_delete_failed_dead (log ++ tail) =
        negb (length (dead_deletes data (log ++ tail)) =? 0)%nat
        || some_delete_failed_dead tail.
Proof.
  induction data as [|datum rest IH];
    intros iData unhandled w iData' unhandled' w' log H.
  - cbn in H. injection H as <- <- <- <-. cbn.
    rewrite !app_nil_r. repeat split; reflexivity.
  - destruct datum as [d|r]; cbn [handler_loop] in H.
    + destruct (IndexerData.IsDelete d) eqn:Hdel.
      * unfold bind, call_Delete in H.
        destruct (Delete ix (IndexerData.IDs d) w) as [err w1] eqn:HD.
        destruct err as [e|].
        -- unfold bind, call_Ping in H.
           destruct (Ping ix w1) as [alive w2] eqn:HP.
           destruct alive.
           ++ destruct (handler_loop ix rest iData unhandled w2)
                as [[[i u] w3] l3] eqn:HL.
              injection H as <- <- <- <-.
              destruct (IH _ _ _ _ _ _ _ HL) as (Hi & Hd & Hx & Ht).
              cbn [upsert_records delete_records]. rewrite Hdel.
              cbn. rewrite Hd, Hx.
              split; [assumption|split; [reflexivity|split; [reflexivity|]]].
              intros tail; destruct (Ht tail) as (A & B & C & D).
              rewrite Hdel, B, Hd. auto.
           ++ destruct (handler_loop ix rest iData
                          (unhandled ++ [DIndexerData d]) w2)
                as [[[i u] w3] l3] eqn:HL.
              injection H as <- <- <- <-.
              destruct (IH _ _ _ _ _ _ _ HL) as (Hi & Hd & Hx & Ht).
              cbn [upsert_records delete_records]. rewrite Hdel.
              cbn. rewrite Hd, Hx.
              split; [assumption|split; [reflexivity|split; [reflexivity|]]].
              intros tail; destruct (Ht tail) as (A & B & C & D).
              rewrite Hdel, B, Hd, A, <- app_assoc. auto.
        -- destruct (handler_loop ix rest iData unhandled w1)
             as [[[i u] w3] l3] eqn:HL.
           injection H as <- <- <- <-.
           destruct (IH _ _ _ _ _ _ _ HL) as (Hi & Hd & Hx & Ht).
           cbn [upsert_records delete_records]. rewrite Hdel.
           cbn. rewrite Hd, Hx.
           split; [assumption|split; [reflexivity|split; [reflexivity|]]].
           intros tail; destruct (Ht tail) as (A & B & C & D).
           rewrite Hdel, B, Hd. auto.
      * destruct (IH _ _ _ _ _ _ _ H) as (Hi & Hd & Hx & Ht).
        cbn [upsert_records delete_records dead_deletes]. rewrite Hdel.
        split; [rewrite Hi, <- app_assoc; reflexivity|].
        split; [assumption|split; [assumption|]].
        intros tail; destruct (Ht tail) as (A & B & C & D). auto.
    + destruct (IH _ _ _ _ _ _ _ H) as (Hi & Hd & Hx & Ht).
      cbn [upsert_records delete_records dead_deletes].
      split; [assumption|split; [assumption|split; [assumption|]]].
      intros tail; destruct (Ht tail) as (A & B & C & D). auto.
Qed.

Lemma index_calls_In (log : list Event) batch e :
  In (EvIndex batch e) log -> In batch (index_calls log).
Proof.
  induction log as [|ev log IH]; simpl; [tauto|].
  intros [->|H]; [left; reflexivity|].
  destruct ev; simpl; auto.
Qed.

Lemma dead_deletes_all_delete (data : list Datum) :
  forall log,
    filter is_delete_datum (dead_deletes data log) = dead_deletes data log.
Proof.
  induction data as [|[d|r] data IH]; intros log; simpl; auto.
  destruct (IndexerData.IsDelete d) eqn:Hdel; auto.
  destruct log as [|[ids [e|]| | | | | | | | |] log]; simpl; auto.
  destruct log as [|[|[|]| | | | | | | |] log]; simpl; auto.
  rewrite Hdel, IH. reflexivity.
Qed.

Lemma upsert_records_no_delete (data : list Datum) :
  filter is_delete_datum (map DIndexerData (upsert_records data)) = [].
Proof.
  induction data as [|[d|r] data IH]; simpl; auto.
  destruct (IndexerData.IsDelete d) eqn:Hdel; simpl; auto.
  rewrite Hdel. exact IH.
Qed.

Lemma handler_cases (data : list Datum) (w : W) :
  exists unhandled w1 l1,
    handler_loop ix data [] [] w
      = (upsert_records data, unhandled, w1, l1) /\
    handler_end data l1 unhandled
      (result (handler (Some ix) data w))
      (calls (handler (Some ix) data w)).
Proof.
  unfold handler, bind, result, calls.
  destruct (handler_loop ix data [] [] w) as [[[i u] w1] l1] eqn:HL.
  destruct (handler_loop_spec data _ _ _ _ _ _ _ HL) as (Hi & _).
  cbn in Hi. subst i.
  exists u, w1, l1. split; [reflexivity|].
  destruct u as [|x u]; cbn [length Nat.ltb Nat.leb].
  - unfold call_Index.
    destruct (Index ix (upsert_records data) w1) as [[e|] w2].
    + unfold bind, call_Ping.
      destruct (Ping ix w2) as [alive w3].
      destruct alive; cbn.
      * apply (end_index_failed data l1 [] e true). reflexivity.
      * apply (end_index_failed data l1 [] e false). reflexivity.
    + cbn. apply end_indexed. reflexivity.
  - cbn. rewrite app_nil_r. apply end_short_circuit. discriminate.
Qed.

End HandlerFacts.

Section HandlerClaims.

Context {W : Type}.
Variable ix : Indexer W.

(** C1.  When the batched [Index] call of a handler run fails, it was
    the only [Index] call, it was made on exactly the upsert records
    of the batch, and the next (and last) backend call is [Ping]: if
    [Ping] answers [true] the residual is empty, so every upsert
    record is dropped; if it answers [false] the residual is the list
    of all upsert records of the batch, in batch order. *)
Theorem index_failure_ping_decides
        (data : list Datum) (w : W) (batch : list IndexerData.t) (e : error) :
  In (EvIndex batch (Some e)) (calls (handler (Some ix) data w)) ->
  batch = upsert_records data /\
  index_calls (calls (handler (Some ix) data w)) = [batch] /\
  exists before alive,
    calls (handler (Some ix) data w)
      = before ++ [EvIndex batch (Some e); EvPing alive] /\
    result (handler (Some ix) data w)
      = if alive then [] else map DIndexerData (upsert_records data).
Proof.
  intros Hin.
  destruct (handler_cases ix data w) as (u & w1 & l1 & HL & Hend).
  destruct (handler_loop_spec ix data _ _ _ _ _ _ _ HL) as (_ & _ & Hx & Ht).
  remember (result (handler (Some ix) data w)) as residual eqn:Hr.
  remember (calls (handler (Some ix) data w)) as log eqn:Hl.
  clear Hr Hl.
  destruct Hend as [Hu | Hu | e0 alive Hu].
  - apply index_calls_In in Hin. rewrite Hx in Hin. destruct Hin.
  - apply in_app_or in Hin. destruct Hin as [Hin | [Hin | []]].
    + apply index_calls_In in Hin. rewrite Hx in Hin. destruct Hin.
    + discriminate Hin.
  - apply in_app_or in Hin. destruct Hin as [Hin | [Hin | [Hin | []]]].
    + apply index_calls_In in Hin. rewrite Hx in Hin. destruct Hin.
    + injection Hin as <- <-.
      split; [reflexivity|]. split.
      * destruct (Ht [EvIndex (upsert_records data) (Some e0); EvPing alive])
          as (_ & _ & C & _).
        rewrite C. reflexivity.
      * exists l1, alive. split; reflexivity.
    + discriminate Hin.
Qed.

(** C2, as amended.  Every delete record of the batch gets a [Delete]
    call of its own, made with that record's ids, in batch order; and
    the delete records found in the residual are exactly those whose
    [Delete] call failed and whose following [Ping] answered [false],
    in batch order.  A delete record whose call succeeded, or failed
    with the backend answering [Ping], is not redelivered. *)
Theorem delete_requeued_iff_backend_dead (data : list Datum) (w : W) :
  delete_calls (calls (handler (Some ix) data w))
    = map IndexerData.IDs (delete_records data) /\
  filter is_delete_datum (result (handler (Some ix) data w))
    = dead_deletes data (calls (handler (Some ix) data w)).
Proof.
  destruct (handler_cases ix data w) as (u & w1 & l1 & HL & Hend).
  destruct (handler_loop_spec ix data _ _ _ _ _ _ _ HL) as (_ & Hd & _ & Ht).
  remember (result (handler (Some ix) data w)) as residual eqn:Hr.
  remember (calls (handler (Some ix) data w)) as log eqn:Hl.
  clear Hr Hl.
  destruct Hend as [Hu | Hu | e0 alive Hu].
  - split; [exact Hd|].
    destruct (Ht []) as (A & _). rewrite app_nil_r in A. cbn in A.
    rewrite filter_app, upsert_records_no_delete, app_nil_r.
    rewrite A. apply dead_deletes_all_delete.
  - destruct (Ht [EvIndex (upsert_records data) None]) as (A & B & _).
    split.
    + rewrite B, Hd. cbn. apply app_nil_r.
    + cbn in A. rewrite <- A, Hu. reflexivity.
  - destruct (Ht [EvIndex (upsert_records data) (Some e0); EvPing alive])
      as (A & B & _).
    split.
    + rewrite B, Hd. cbn. apply app_nil_r.
    + cbn in A. rewrite <- A, Hu.
      destruct alive; [reflexivity|apply upsert_records_no_delete].
Qed.

(** C3, as amended.  When some [Delete] call of a handler run failed
    and the [Ping] right after it answered [false], the handler makes
    no [Index] call, and its residual is the list of the delete
    records that failed that way, in batch order, followed by every
    upsert record of the batch, in batch order. *)
Theorem dead_delete_short_circuits (data : list Datum) (w : W) :
  some_delete_failed_dead (calls (handler (Some ix) data w)) = true ->
  index_calls (calls (handler (Some ix) data w)) = [] /\
  dead_deletes data (calls (handler (Some ix) data w)) <> [] /\
  result (handler (Some ix) data w)
    = dead_deletes data (calls (handler (Some ix) data w))
      ++ map DIndexerData (upsert_records data).
Proof.
  intros Hdead.
  destruct (handler_cases ix data w) as (u & w1 & l1 & HL & Hend).
  destruct (handler_loop_spec ix data _ _ _ _ _ _ _ HL) as (_ & _ & Hx & Ht).
  remember (result (handler (Some ix) data w)) as residual eqn:Hr.
  remember (calls (handler (Some ix) data w)) as log eqn:Hl.
  clear Hr Hl.
  destruct Hend as [Hu | Hu | e0 alive Hu].
  - destruct (Ht []) as (A & _). rewrite app_nil_r in A. cbn in A.
    split; [exact Hx|]. rewrite <- A. split; [exact Hu|reflexivity].
  - destruct (Ht [EvIndex (upsert_records data) None]) as (A & _ & _ & D).
    cbn in A. rewrite <- A, Hu in D. rewrite D in Hdead. discriminate.
  - destruct (Ht [EvIndex (upsert_records data) (Some e0); EvPing alive])
      as (A & _ & _ & D).
    cbn in A. rewrite <- A, Hu in D. rewrite D in Hdead.
    destruct alive; discriminate.
Qed.

End HandlerClaims.

(** C1 at a batch of five upsert records whose [Index] call fails while
    the backend does not answer [Ping]. *)
Lemma index_failure_ping_decides_witness :
  let w := Script.with_backend [] [false] [Some "down"%string] in
  let r := handler (Some Script.indexer) Script.five_upserts w in
  In (EvIndex (map Script.upsert [1; 2; 3; 4; 5]) (Some "down"%string))
     (calls r) /\
  (map Script.upsert [1; 2; 3; 4; 5] = upsert_records Script.five_upserts /\
   index_calls (calls r) = [map Script.upsert [1; 2; 3; 4; 5]] /\
   exists before alive,
     calls r = before ++ [EvIndex (map Script.upsert [1; 2; 3; 4; 5])
                                  (Some "down"%string); EvPing alive] /\
     result r = if alive then []
                else map DIndexerData (upsert_records Script.five_upserts)).
Proof.
  intros w r. split.
  - vm_compute. left. reflexivity.
  - apply (index_failure_ping_decides Script.indexer Script.five_upserts w).
    vm_compute. left. reflexivity.
Defined.

(** C2 as stated does not hold.  First run: the only record of the
    batch is a delete record, its [Delete] call fails, the backend
    answers [Ping], and the record is not in the residual.  Second run:
    the [Delete] call of the first record fails and [Ping] answers
    [false]; the residual is the whole batch, not that record alone.
    Third run: two delete records, both deleted without error; the
    backend saw one [Delete] call per record, not one call for both. *)
Lemma failed_delete_not_requeued_alone :
  let r1 := handler (Some Script.indexer)
                    [DIndexerData (Script.bulk_delete [1; 2])]
                    (Script.with_backend [Some "rejected"%string] [true] []) in
  let r2 := handler (Some Script.indexer) Script.delete_then_upsert
                    (Script.with_backend [Some "down"%string] [false] []) in
  let r3 := handler (Some Script.indexer) Script.two_deletes Script.quiet in
  (calls r1 = [EvDelete [1; 2] (Some "rejected"%string); EvPing true;
               EvIndex [] None] /\
   result r1 = []) /\
  (calls r2 = [EvDelete [1; 2] (Some "down"%string); EvPing false] /\
   result r2 = Script.delete_then_upsert) /\
  delete_calls (calls r3) = [[1; 2]; [3]].
Proof.
  vm_compute. repeat split.
Qed.

(** C3 as stated does not hold: the [Delete] call of the first record
    fails, the backend answers [Ping], and the handler goes on to call
    [Index] on the upsert record and returns an empty residual. *)
Lemma failed_delete_alive_still_indexes :
  let r := handler (Some Script.indexer) Script.delete_then_upsert
                   (Script.with_backend [Some "rejected"%string] [true] []) in
  some_delete_failed (calls r) = true /\
  index_calls (calls r) = [[Script.upsert 5]] /\
  result r = [].
Proof.
  vm_compute. repeat split.
Qed.

(** C3, as amended, at a batch of two deletes around an upsert: the
    first [Delete] fails with the backend dead, the second succeeds. *)
Lemma dead_delete_short_circuits_witness :
  let w := Script.with_backend [Some "down"%string] [false] [] in
  let r := handler (Some Script.indexer) Script.two_deletes w in
  some_delete_failed_dead (calls r) = true /\
  (index_calls (calls r) = [] /\
   dead_deletes Script.two_deletes (calls r) <> [] /\
   result r = dead_deletes Script.two_deletes (calls r)
              ++ map DIndexerData (upsert_records Script.two_deletes)).
Proof.
  intros w r. split.
  - vm_compute. reflexivity.
  - apply (dead_delete_short_circuits Script.indexer Script.two_deletes w).
    vm_compute. reflexivity.
Defined.

(** ** The indexer holder *)

Section HolderFacts.

Context {I : Type}.

(** While nobody has called [set] or [cancel], the holder stays
    empty and not cancelled, nobody has been signalled, no [get]
    returns and every parked goroutine stays parked. *)
Lemma run_without_write (ops : list (Holder.op I)) :
  forall h : Holder.indexerHolder I,
    forallb (Holder.is_quiet I) ops = true ->
    Holder.indexer I h = None ->
    Holder.cancelled I h = false ->
    Holder.woken I h = [] ->
    Holder.indexer I (fst (Holder.run I h ops)) = None /\
    Holder.cancelled I (fst (Holder.run I h ops)) = false /\
    Holder.woken I (fst (Holder.run I h ops)) = [] /\
    snd (Holder.run I h ops) = [] /\
    forall g, In g (Holder.waiting I h) ->
              In g (Holder.waiting I (fst (Holder.run I h ops))).
Proof.
  induction ops as [|o ops IH]; intros h Hq Hi Hc Hw.
  - cbn. auto.
  - cbn in Hq. apply andb_true_iff in Hq. destruct Hq as [Ho Hq].
    cbn [Holder.run].
    destruct o as [g|g|ix|]; try discriminate Ho.
    + cbn [Holder.step]. unfold Holder.get. rewrite Hi, Hc.
      match goal with
      | |- context [Holder.run I ?h1 ops] =>
          specialize (IH h1 Hq eq_refl eq_refl Hw);
          destruct (Holder.run I h1 ops) as [h2 r2]
      end.
      cbn in *. destruct IH as (A & B & C & D & E).
      repeat split; auto.
      intros g0 Hg. apply E. apply in_or_app. left. exact Hg.
    + cbn [Holder.step]. unfold Holder.get_resume. rewrite Hw. cbn [existsb].
      specialize (IH h Hq Hi Hc Hw).
      destruct (Holder.run I h ops) as [h2 r2].
      cbn in *. exact IH.
Qed.

Lemma run_keeps_cancelled (ops : list (Holder.op I)) :
  forall h : Holder.indexerHolder I,
    Holder.cancelled I h = true ->
    Holder.cancelled I (fst (Holder.run I h ops)) = true.
Proof.
  induction ops as [|o ops IH]; intros h Hc; [exact Hc|].
  cbn [Holder.run].
  destruct (Holder.step I h o) as [h1 r1] eqn:Hs.
  assert (Hc1 : Holder.cancelled I h1 = true).
  { destruct o as [g|g|ix|]; cbn in Hs.
    - unfold Holder.get in Hs. rewrite Hc in Hs.
      destruct (Holder.indexer I h); injection Hs as <- _; exact Hc.
    - unfold Holder.get_resume in Hs.
      destruct (existsb (Nat.eqb g) (Holder.woken I h));
        injection Hs as <- _; exact Hc.
    - injection Hs as <- _. exact Hc.
    - injection Hs as <- _. reflexivity. }
  specialize (IH h1 Hc1).
  destruct (Holder.run I h1 ops) as [h2 r2]. exact IH.
Qed.

Lemma run_with_cancel (ops : list (Holder.op I)) :
  forall h : Holder.indexerHolder I,
    existsb (Holder.is_cancel I) ops = true ->
    Holder.cancelled I (fst (Holder.run I h ops)) = true.
Proof.
  induction ops as [|o ops IH]; intros h Hex; [discriminate Hex|].
  cbn in Hex. apply orb_true_iff in Hex.
  cbn [Holder.run].
  destruct (Holder.step I h o) as [h1 r1] eqn:Hs.
  destruct Hex as [Ho | Hex].
  - destruct o; try discriminate Ho.
    cbn in Hs. injection Hs as <- _.
    pose proof (run_keeps_cancelled ops (Holder.cancel I h) eq_refl) as K.
    destruct (Holder.run I (Holder.cancel I h) ops). exact K.
  - specialize (IH h1 Hex).
    destruct (Holder.run I h1 ops) as [h2 r2]. exact IH.
Qed.

Lemma run_without_set (ops : list (Holder.op I)) :
  forall h : Holder.indexerHolder I,
    existsb (Holder.is_set I) ops = false ->
    Holder.indexer I (fst (Holder.run I h ops)) = Holder.indexer I h.
Proof.
  induction ops as [|o ops IH]; intros h Hex; [reflexivity|].
  cbn in Hex. apply orb_false_iff in Hex. destruct Hex as [Ho Hex].
  cbn [Holder.run].
  destruct (Holder.step I h o) as [h1 r1] eqn:Hs.
  assert (Hi : Holder.indexer I h1 = Holder.indexer I h).
  { destruct o as [g|g|ix|]; try discriminate Ho; cbn in Hs.
    - unfold Holder.get in Hs.
      destruct (Holder.indexer I h) eqn:E1, (Holder.cancelled I h) eqn:E2;
        injection Hs as <- _; cbn; congruence.
    - unfold Holder.get_resume in Hs.
      destruct (existsb (Nat.eqb g) (Holder.woken I h));
        injection Hs as <- _; reflexivity.
    - injection Hs as <- _. reflexivity. }
  specialize (IH h1 Hex).
  destruct (Holder.run I h1 ops) as [h2 r2]. cbn in *. congruence.
Qed.

(** A [Broadcast] signals every parked goroutine. *)
Lemma write_wakes (h : Holder.indexerHolder I) (wr : Holder.op I) (g : Holder.goroutine) :
  Holder.is_write I wr = true ->
  In g (Holder.waiting I h) ->
  existsb (Nat.eqb g) (Holder.woken I (fst (Holder.step I h wr))) = true.
Proof.
  intros Hwr Hg.
  apply existsb_exists. exists g. split; [|apply Nat.eqb_refl].
  destruct wr as [g0|g0|ix|]; try discriminate Hwr; cbn;
    apply in_or_app; right; exact Hg.
Qed.

(** C4.  First part: a [get] issued while neither [set] nor [cancel]
    has been called does not return; as long as neither is called the
    caller stays parked on the condition variable, whatever the other
    goroutines do with [get]; and the first [set] or [cancel] signals
    it, after which its [get] returns.  Second part: after any history
    that contains a [cancel] and no [set], a [get] returns nil in its
    first step, without parking, and leaves the holder as it was. *)
Theorem get_blocks_until_set_or_cancel :
  (forall (before during : list (Holder.op I)) (g : Holder.goroutine),
      forallb (Holder.is_quiet I) before = true ->
      forallb (Holder.is_quiet I) during = true ->
      let h0 := fst (Holder.run I Holder.newIndexerHolder before) in
      let parked := Holder.run I (fst (Holder.get I g h0)) during in
      snd (Holder.get I g h0) = Holder.GetWaits /\
      Holder.returns_of I g (snd parked) = [] /\
      In g (Holder.waiting I (fst parked)) /\
      snd (Holder.get_resume I g (fst parked)) = Holder.GetWaits /\
      forall wr,
        Holder.is_write I wr = true ->
        let h2 := fst (Holder.step I (fst parked) wr) in
        snd (Holder.get_resume I g h2)
          = Holder.GetReturns I (Holder.indexer I h2))
  /\
  (forall (ops : list (Holder.op I)) (g : Holder.goroutine),
      existsb (Holder.is_cancel I) ops = true ->
      existsb (Holder.is_set I) ops = false ->
      let h := fst (Holder.run I Holder.newIndexerHolder ops) in
      Holder.get I g h = (h, Holder.GetReturns I None)).
Proof.
  split.
  - intros before during g Hb Hd h0 parked.
    destruct (run_without_write before Holder.newIndexerHolder Hb
                eq_refl eq_refl eq_refl) as (Hi & Hc & Hw & _ & _).
    fold h0 in Hi, Hc, Hw.
    assert (Hget : Holder.get I g h0
                   = ({| Holder.indexer := Holder.indexer I h0;
                         Holder.cancelled := Holder.cancelled I h0;
                         Holder.waiting := Holder.waiting I h0 ++ [g];
                         Holder.woken := Holder.woken I h0 |},
                      Holder.GetWaits)).
    { unfold Holder.get. rewrite Hi, Hc. reflexivity. }
    subst parked. rewrite Hget. cbn [fst snd].
    match goal with
    | |- context [Holder.run I ?h1 during] =>
        destruct (run_without_write during h1 Hd Hi Hc Hw)
          as (Hi' & Hc' & Hw' & Hr & Hin)
    end.
    split; [reflexivity|].
    split; [rewrite Hr; reflexivity|].
    assert (Hg : In g (Holder.waiting I
              (fst (Holder.run I
                 {| Holder.indexer := Holder.indexer I h0;
                    Holder.cancelled := Holder.cancelled I h0;
                    Holder.waiting := Holder.waiting I h0 ++ [g];
                    Holder.woken := Holder.woken I h0 |} during)))).
    { apply Hin. cbn. apply in_or_app. right. left. reflexivity. }
    split; [exact Hg|].
    split.
    + unfold Holder.get_resume. rewrite Hw'. reflexivity.
    + intros wr Hwr. cbv zeta.
      unfold Holder.get_resume.
      rewrite (write_wakes _ wr g Hwr Hg). reflexivity.
  - intros ops g Hc Hs h.
    pose proof (run_with_cancel ops Holder.newIndexerHolder Hc) as Hcan.
    pose proof (run_without_set ops Holder.newIndexerHolder Hs) as Hix.
    fold h in Hcan, Hix. cbn in Hix.
    unfold Holder.get. rewrite Hix, Hcan. reflexivity.
Qed.

End HolderFacts.

(** ** The mutation entry points *)

Section MutationFacts.

Context {W : Type}.
Variable CommentTypeComment : Z.
Variable env : Env W.
Variable q : Queue W.

Lemma collect_comments_spec (cs : list Comment.t) :
  forall comments,
    collect_comments CommentTypeComment cs comments
    = comments ++ regular_comment_bodies CommentTypeComment cs.
Proof.
  unfold regular_comment_bodies.
  induction cs as [|c cs IH]; intros comments; cbn.
  - symmetry. apply app_nil_r.
  - destruct (Comment.Type_ c =? CommentTypeComment).
    + rewrite IH, <- app_assoc. reflexivity.
    + apply IH.
Qed.

Lemma pushed_app (l1 l2 : list Event) :
  pushed (l1 ++ l2) = pushed l1 ++ pushed l2.
Proof.
  induction l1 as [|e l1 IH]; [reflexivity|].
  destruct e; cbn; rewrite ?IH; reflexivity.
Qed.

Lemma UpdateIssueIndexer_calls (issue : Issue.t) (w : W) :
  exists d err,
    calls (UpdateIssueIndexer CommentTypeComment q issue w)
      = [EvPush (DIndexerData d) err] /\
    IndexerData.ID d = Issue.ID issue /\
    IndexerData.IsDelete d = false /\
    IndexerData.IDs d = [].
Proof.
  unfold UpdateIssueIndexer, bind, call_Push, calls.
  match goal with
  | |- context [Push q ?x w] => destruct (Push q x w) as [e w1]
  end.
  cbn. eexists. exists e. split; [reflexivity|]. cbn. auto.
Qed.

Lemma update_issues_calls (iss : list Issue.t) :
  forall w,
    forallb inner_call (calls (update_issues CommentTypeComment q iss w))
      = true /\
    Forall (fun x => exists issue, In issue iss /\ upsert_shaped issue x)
           (pushed (calls (update_issues CommentTypeComment q iss w))).
Proof.
  induction iss as [|issue iss IH]; intros w.
  - cbn. split; [reflexivity|constructor].
  - cbn [update_issues]. unfold bind.
    destruct (UpdateIssueIndexer_calls issue w) as (d & err & Hc & Hid & Hdel & Hids).
    destruct (UpdateIssueIndexer CommentTypeComment q issue w)
      as [[u w1] l1].
    cbn in Hc. subst l1.
    destruct (IH w1) as [Hn Hp].
    destruct (update_issues CommentTypeComment q iss w1) as [[u2 w2] l2].
    cbn in *. split; [exact Hn|].
    constructor.
    + exists issue. split; [left; reflexivity|]. cbn. auto.
    + eapply Forall_impl; [|exact Hp].
      intros x (i & Hi & Hx). exists i. split; [right; exact Hi|exact Hx].
Qed.

(** The calls of [UpdateRepoIndexer]: first [Issues] for the
    repository, then only calls that belong to that repository's
    work; what it pushes are single-item upserts. *)
Lemma UpdateRepoIndexer_calls (repo : Repository.t) (w : W) :
  exists err l,
    calls (UpdateRepoIndexer CommentTypeComment env q repo w)
      = EvIssues (Repository.ID repo) err :: l /\
    forallb inner_call l = true /\
    Forall (fun x => exists issue, upsert_shaped issue x) (pushed l).
Proof.
  unfold UpdateRepoIndexer, bind, call_Issues, call_LoadDiscussComments, calls.
  destruct (Issues env (Repository.ID repo) w) as [[iss [e|]] w1]; cbn.
  - exists (Some e), []. repeat split; constructor.
  - destruct (LoadDiscussComments env iss w1) as [[iss' [e|]] w2]; cbn.
    + exists None, [EvLoadDiscussComments (Some e)].
      repeat split; constructor.
    + destruct (update_issues_calls iss' w2) as [Hn Hp].
      destruct (update_issues CommentTypeComment q iss' w2) as [[u w3] l3].
      cbn in *.
      exists None, (EvLoadDiscussComments None :: l3).
      split; [reflexivity|]. split; [exact Hn|].
      cbn. eapply Forall_impl; [|exact Hp].
      intros x (i & _ & Hx). exists i. exact Hx.
Qed.

(** C6.  [UpdateIssueIndexer] makes exactly one call, a [Push], and
    the record it pushes carries the id, repository id, title and
    body of the issue, has as comments the bodies of those comments
    of the issue whose type is [CommentTypeComment], in their
    original order, and is not a delete record. *)
Theorem UpdateIssueIndexer_record (issue : Issue.t) (w : W) :
  let record :=
    {| IndexerData.ID := Issue.ID issue;
       IndexerData.RepoID := Issue.RepoID issue;
       IndexerData.Title := Issue.Title issue;
       IndexerData.Content := Issue.Content issue;
       IndexerData.Comments :=
         regular_comment_bodies CommentTypeComment (Issue.Comments issue);
       IndexerData.IsDelete := false;
       IndexerData.IDs := [] |} in
  calls (UpdateIssueIndexer CommentTypeComment q issue w)
    = [EvPush (DIndexerData record) (fst (Push q (DIndexerData record) w))].
Proof.
  intros record.
  unfold UpdateIssueIndexer, bind, call_Push, calls.
  rewrite collect_comments_spec. cbn [app]. fold record.
  destruct (Push q (DIndexerData record) w) as [e w1].
  reflexivity.
Qed.


(** C8.  Whatever [UpdateIssueIndexer] pushes is a single-item upsert
    for its issue (delete flag clear, [ID] the issue's id, [IDs]
    empty); whatever [UpdateRepoIndexer] pushes is a single-item
    upsert for some issue; whatever [DeleteRepoIssueIndexer] pushes is
    a bulk delete (delete flag set, [IDs] non-empty, [ID] and the
    other single-item fields at their zero values). *)
Theorem mutation_records_well_shaped :
  (forall issue w,
      Forall (upsert_shaped issue)
             (pushed (calls (UpdateIssueIndexer CommentTypeComment q issue w))))
  /\
  (forall repo w,
      Forall (fun x => exists issue, upsert_shaped issue x)
             (pushed (calls (UpdateRepoIndexer CommentTypeComment env q repo w))))
  /\
  (forall repo w,
      Forall bulk_delete_shaped
             (pushed (calls (DeleteRepoIssueIndexer env q repo w)))).
Proof.
  split; [|split].
  - intros issue w.
    destruct (UpdateIssueIndexer_calls issue w) as (d & err & Hc & Hid & Hdel & Hids).
    rewrite Hc. cbn. constructor; [|constructor]. cbn. auto.
  - intros repo w.
    destruct (UpdateRepoIndexer_calls repo w) as (err & l & Hc & _ & Hp).
    rewrite Hc. cbn. exact Hp.
  - intros repo w.
    unfold DeleteRepoIssueIndexer, bind, call_GetIssueIDsByRepoID, calls.
    destruct (GetIssueIDsByRepoID env (Repository.ID repo) w)
      as [[ids [e|]] w1]; cbn; [constructor|].
    destruct ids as [|i ids]; cbn; [constructor|].
    unfold call_Push.
    match goal with
    | |- context [Push q ?x w1] => destruct (Push q x w1) as [e w2]
    end.
    cbn. constructor; [|constructor].
    cbn. repeat split; try reflexivity. discriminate.
Qed.

End MutationFacts.

(** ** The populator *)

Section PopulatorFacts.

Context {W : Type}.
Variable CommentTypeComment : Z.
Variable env : Env W.
Variable q : Queue W.

Lemma polled_before_work_inner (l tail : list Event) :
  forallb inner_call l = true ->
  polled_before_work false (l ++ tail) = polled_before_work false tail.
Proof.
  induction l as [|e l IH]; intros Hl; [reflexivity|].
  cbn in Hl. apply andb_true_iff in Hl. destruct Hl as [He Hl].
  destruct e; try discriminate He; cbn; auto.
Qed.

Lemma inner_calls_no_poll (l : list Event) (done : bool) :
  forallb inner_call l = true -> ~ In (EvCtxDone done) l.
Proof.
  intros Hl Hin.
  rewrite forallb_forall in Hl. apply Hl in Hin. discriminate Hin.
Qed.

(** The repository loop: if it stops on the poll, that poll is its
    last call; otherwise no poll answered [true] and the loop's log
    is transparent for the discipline of what follows. *)
Lemma populate_repos_log (repos : list Repository.t) :
  forall w stopped w' l,
    populate_repos CommentTypeComment env q repos w = (stopped, w', l) ->
    if stopped
    then polled_before_work false l = true
    else ~ In (EvCtxDone true) l /\
         forall tail,
           polled_before_work false (l ++ tail)
           = polled_before_work false tail.
Proof.
  induction repos as [|repo rest IH]; intros w stopped w' l H.
  - cbn in H. injection H as <- <- <-. split; [cbn; tauto|reflexivity].
  - cbn [populate_repos] in H. unfold bind at 1 in H.
    unfold call_ctxDone in H.
    destruct (ctxDone env w) eqn:Hdone.
    + cbn in H. injection H as <- <- <-. reflexivity.
    + unfold bind in H.
      destruct (UpdateRepoIndexer_calls CommentTypeComment env q repo w)
        as (err & l0 & Hc & Hn & _).
      destruct (UpdateRepoIndexer CommentTypeComment env q repo w)
        as [[u w1] l1].
      cbn in Hc. subst l1.
      destruct (populate_repos CommentTypeComment env q rest w1)
        as [[stopped2 w2] l2] eqn:Hrest.
      injection H as <- <- <-.
      specialize (IH _ _ _ _ Hrest).
      destruct stopped2.
      * cbn. rewrite polled_before_work_inner by exact Hn. exact IH.
      * destruct IH as [Hno Htail]. split.
        -- cbn. intros [H|[H|H]]; try discriminate H.
           apply in_app_or in H. destruct H as [H|H]; [|auto].
           exact (inner_calls_no_poll _ _ Hn H).
        -- intros tail. cbn. rewrite <- app_assoc.
           rewrite polled_before_work_inner by exact Hn. apply Htail.
Qed.

Lemma populate_pages_log (fuel : nat) :
  forall page w res w' l,
    populate_pages CommentTypeComment env q fuel page w = (res, w', l) ->
    polled_before_work false l = true /\
    (In (EvCtxDone true) l -> res = Some tt).
Proof.
  induction fuel as [|fuel IH]; intros page w res w' l H.
  - cbn in H. injection H as <- <- <-. split; [reflexivity|cbn; tauto].
  - cbn [populate_pages] in H. unfold bind at 1 in H.
    unfold call_ctxDone in H.
    destruct (ctxDone env w) eqn:Hdone.
    + cbn in H. injection H as <- <- <-. split; reflexivity.
    + unfold bind at 1 in H. unfold call_SearchRepositoryByName in H.
      destruct (SearchRepositoryByName env page w) as [[repos [e|]] w1].
      * destruct (populate_pages CommentTypeComment env q fuel (int_succ page) w1)
          as [[res2 w2] l2] eqn:Hrec.
        injection H as <- <- <-.
        destruct (IH _ _ _ _ _ Hrec) as [A B].
        split; [exact A|].
        cbn. intros [H|[H|H]]; try discriminate H. auto.
      * destruct repos as [|repo rest].
        { cbn in H. injection H as <- <- <-. split; reflexivity. }
        cbn [length Nat.eqb] in H. unfold bind in H.
        destruct (populate_repos CommentTypeComment env q (repo :: rest) w1)
          as [[stopped w2] l2] eqn:Hin.
        apply populate_repos_log in Hin.
        destruct stopped.
        -- cbn in H. injection H as <- <- <-.
           rewrite app_nil_r. split; [exact Hin|reflexivity].
        -- destruct (populate_pages CommentTypeComment env q fuel (int_succ page) w2)
             as [[res3 w3] l3] eqn:Hrec.
           injection H as <- <- <-.
           destruct Hin as [Hno Htail].
           destruct (IH _ _ _ _ _ Hrec) as [A B].
           split.
           ++ cbn. rewrite Htail. exact A.
           ++ cbn. intros [H|[H|H]]; try discriminate H.
              apply in_app_or in H. destruct H as [H|H]; [|auto].
              contradiction.
Qed.

Lemma polled_before_work_split (pre : list Event) :
  forall polled e post,
    polled_before_work polled (pre ++ e :: post) = true ->
    work_call e = true ->
    (pre = [] /\ polled = true) \/ exists pre', pre = pre' ++ [EvCtxDone false].
Proof.
  induction pre as [|x pre IH]; intros polled e post H He.
  - left. split; [reflexivity|].
    destruct e; try discriminate He; cbn in H;
      apply andb_true_iff in H; tauto.
  - right.
    assert (Hnext : forall b,
               polled_before_work b (pre ++ e :: post) = true ->
               (b = false \/ x = EvCtxDone false) ->
               exists pre', x :: pre = pre' ++ [EvCtxDone false]).
    { intros b Hb Hx.
      destruct (IH b e post Hb He) as [[-> ->] | [pre' ->]].
      - destruct Hx as [Hx | ->]; [discriminate Hx|].
        exists []. reflexivity.
      - exists (x :: pre'). reflexivity. }
    destruct x; cbn in H;
      try (apply (Hnext false H); left; reflexivity).
    + destruct done.
      * destruct pre; discriminate H.
      * apply (Hnext true H). right. reflexivity.
    + apply andb_true_iff in H. destruct H as [_ H].
      apply (Hnext false H). left. reflexivity.
    + apply andb_true_iff in H. destruct H as [_ H].
      apply (Hnext false H). left. reflexivity.
Qed.

Lemma polled_before_work_done_last (pre : list Event) :
  forall polled post,
    polled_before_work polled (pre ++ EvCtxDone true :: post) = true ->
    post = [].
Proof.
  induction pre as [|x pre IH]; intros polled post H.
  - cbn in H. destruct post; [reflexivity|discriminate H].
  - destruct x; cbn in H; try (apply (IH _ _ H)).
    + destruct done; [destruct pre; discriminate H|apply (IH _ _ H)].
    + apply andb_true_iff in H. destruct H as [_ H]. apply (IH _ _ H).
    + apply andb_true_iff in H. destruct H as [_ H]. apply (IH _ _ H).
Qed.

(** C9.  In every run of the populator, whatever the number of
    iterations it is given: each page fetch and each start of work on
    a repository comes right after a [ctx.Done()] poll that answered
    [false]; a poll that answered [true] is the last call of the run,
    and a run in which a poll answered [true] has returned.  Moreover,
    reached with the signal set, the page loop and the repository
    loop both return on the spot, having made no other call. *)
Theorem populator_polls_cancellation :
  (forall fuel page w,
      let r := populate_pages CommentTypeComment env q fuel page w in
      polled_before_work false (calls r) = true /\
      (forall pre e post,
          calls r = pre ++ e :: post -> work_call e = true ->
          exists pre', pre = pre' ++ [EvCtxDone false]) /\
      (forall pre post,
          calls r = pre ++ EvCtxDone true :: post ->
          post = [] /\ result r = Some tt))
  /\
  (forall fuel page w,
      ctxDone env w = true ->
      populate_pages CommentTypeComment env q (S fuel) page w
      = (Some tt, w, [EvCtxDone true]))
  /\
  (forall repo rest w,
      ctxDone env w = true ->
      populate_repos CommentTypeComment env q (repo :: rest) w
      = (true, w, [EvCtxDone true])).
Proof.
  split; [|split].
  - intros fuel page w r. subst r.
    destruct (populate_pages CommentTypeComment env q fuel page w)
      as [[res w'] l] eqn:H.
    destruct (populate_pages_log fuel page w res w' l H) as [A B].
    unfold calls, result. cbn [fst snd].
    split; [exact A|]. split.
    + intros pre e post -> He.
      destruct (polled_before_work_split _ _ _ _ A He) as [[_ K]|K];
        [discriminate K|exact K].
    + intros pre post ->. split.
      * exact (polled_before_work_done_last _ _ _ A).
      * apply B. apply in_or_app. right. left. reflexivity.
  - intros fuel page w Hdone.
    cbn [populate_pages]. unfold bind, call_ctxDone.
    rewrite Hdone. reflexivity.
  - intros repo rest w Hdone.
    cbn [populate_repos]. unfold bind, call_ctxDone.
    rewrite Hdone. reflexivity.
Qed.

End PopulatorFacts.

(** ** Search *)

Section SearchFacts.

Context {W : Type}.

Lemma collect_ids_spec (hits : list Match.t) :
  forall issueIDs,
    collect_ids hits issueIDs = issueIDs ++ map Match.ID hits.
Proof.
  induction hits as [|r hits IH]; intros issueIDs; cbn.
  - symmetry. apply app_nil_r.
  - rewrite IH, <- app_assoc. reflexivity.
Qed.

(** The three ways [SearchIssuesByKeyword] can return and the one way
    it cannot, by what [holder.get()] and the backend gave. *)
Lemma SearchIssuesByKeyword_cases
      (indexer : option (Indexer W)) (repoIDs : list Z) (keyword : string)
      (w : W) :
  result (SearchIssuesByKeyword indexer repoIDs keyword w)
  = match indexer with
    | None => Returned ([], Some "unable to get issue indexer"%string)
    | Some ix =>
        match snd (fst (Search ix keyword repoIDs 50 0 w)),
              fst (fst (Search ix keyword repoIDs 50 0 w)) with
        | Some e, _ => Returned ([], Some e)
        | None, Some res =>
            Returned (map Match.ID (SearchResult.Hits res), None)
        | None, None => Panicked
        end
    end /\
  calls (SearchIssuesByKeyword indexer repoIDs keyword w)
  = match indexer with
    | None => []
    | Some _ => [EvSearch keyword repoIDs 50 0]
    end.
Proof.
  destruct indexer as [ix|]; [|split; reflexivity].
  unfold SearchIssuesByKeyword, bind, call_Search, result, calls.
  destruct (Search ix keyword repoIDs 50 0 w) as [[res err] w1].
  cbn [fst snd].
  destruct err as [e|]; [split; reflexivity|].
  destruct res as [res|]; [|split; reflexivity].
  cbn. rewrite collect_ids_spec. split; reflexivity.
Qed.

(** C5.  [SearchIssuesByKeyword] returns a non-nil error exactly when
    the holder gave no backend or the backend's [Search] returned an
    error (and then returns that very error); and it returns an id
    list with a nil error exactly when the backend's [Search]
    returned a result with a nil error, the id list being the ids of
    the result's hits, in the order of the hits. *)
Theorem SearchIssuesByKeyword_errors
        (indexer : option (Indexer W)) (repoIDs : list Z) (keyword : string)
        (w : W) :
  let r := result (SearchIssuesByKeyword indexer repoIDs keyword w) in
  ((exists ids e, r = Returned (ids, Some e))
   <-> (indexer = None \/
        exists ix e, indexer = Some ix /\
                     snd (fst (Search ix keyword repoIDs 50 0 w)) = Some e))
  /\
  (forall ix e,
      indexer = Some ix ->
      snd (fst (Search ix keyword repoIDs 50 0 w)) = Some e ->
      r = Returned ([], Some e))
  /\
  (forall ids,
      r = Returned (ids, None)
      <-> exists ix res,
          indexer = Some ix /\
          fst (Search ix keyword repoIDs 50 0 w) = (Some res, None) /\
          ids = map Match.ID (SearchResult.Hits res)).
Proof.
  intros r. subst r.
  destruct (SearchIssuesByKeyword_cases indexer repoIDs keyword w)
    as [-> _].
  destruct indexer as [ix|].
  - destruct (fst (Search ix keyword repoIDs 50 0 w)) as [res err] eqn:HS.
    cbn [fst snd].
    assert (Hsame : forall ix' (P : Indexer W -> Prop),
               Some ix = Some ix' -> P ix' -> P ix).
    { intros ix' P H. injection H as <-. auto. }
    destruct err as [e|]; [|destruct res as [res|]].
    + split; [|split].
      * split; [intros _; right; exists ix, e; rewrite HS; auto|].
        intros _. exists [], e. reflexivity.
      * intros ix' e' Hix He.
        apply (Hsame ix' (fun i => snd (fst (Search i keyword repoIDs 50 0 w))
                                   = Some e') Hix) in He.
        rewrite HS in He. injection He as <-. reflexivity.
      * intros ids. split; [discriminate|].
        intros (ix' & res' & Hix & Hr & _).
        apply (Hsame ix' (fun i => fst (Search i keyword repoIDs 50 0 w)
                                   = (Some res', None)) Hix) in Hr.
        rewrite HS in Hr. discriminate Hr.
    + split; [|split].
      * split; [intros (ids & e & H); discriminate H|].
        intros [H | (ix' & e & Hix & H)]; [discriminate H|].
        apply (Hsame ix' (fun i => snd (fst (Search i keyword repoIDs 50 0 w))
                                   = Some e) Hix) in H.
        rewrite HS in H. discriminate H.
      * intros ix' e' Hix He.
        apply (Hsame ix' (fun i => snd (fst (Search i keyword repoIDs 50 0 w))
                                   = Some e') Hix) in He.
        rewrite HS in He. discriminate He.
      * intros ids. split.
        -- intros H. injection H as <-. exists ix, res. auto.
        -- intros (ix' & res' & Hix & Hr & ->).
           apply (Hsame ix' (fun i => fst (Search i keyword repoIDs 50 0 w)
                                      = (Some res', None)) Hix) in Hr.
           rewrite HS in Hr. injection Hr as <-. reflexivity.
    + split; [|split].
      * split; [intros (ids & e & H); discriminate H|].
        intros [H | (ix' & e & Hix & H)]; [discriminate H|].
        apply (Hsame ix' (fun i => snd (fst (Search i keyword repoIDs 50 0 w))
                                   = Some e) Hix) in H.
        rewrite HS in H. discriminate H.
      * intros ix' e' Hix He.
        apply (Hsame ix' (fun i => snd (fst (Search i keyword repoIDs 50 0 w))
                                   = Some e') Hix) in He.
        rewrite HS in He. discriminate He.
      * intros ids. split; [discriminate|].
        intros (ix' & res' & Hix & Hr & _).
        apply (Hsame ix' (fun i => fst (Search i keyword repoIDs 50 0 w)
                                   = (Some res', None)) Hix) in Hr.
        rewrite HS in Hr. discriminate Hr.
  - split; [|split].
    + split; [intros _; left; reflexivity|].
      intros _. eexists. eexists. reflexivity.
    + intros ix e H. discriminate H.
    + intros ids. split; [discriminate|].
      intros (ix & res & H & _). discriminate H.
Qed.


End SearchFacts.

(** ** The claims on the scripted world *)

(** C4 on natural numbers as backends.  First part: goroutine 1 is
    already parked, goroutine 0 calls [get], then goroutine 2 calls
    [get] and goroutine 1 is (vainly) scheduled.  Second part:
    goroutine 1 calls [get], initialisation is cancelled, goroutine 1
    returns, and goroutine 2 calls [get]. *)
Lemma get_blocks_until_set_or_cancel_witness :
  let before := [Holder.OpGet (I := nat) 1%nat] in
  let during := [Holder.OpGet (I := nat) 2%nat; Holder.OpResume 1%nat] in
  let history := [Holder.OpGet (I := nat) 1%nat; Holder.OpCancel;
                  Holder.OpResume 1%nat] in
  let h0 := fst (Holder.run nat Holder.newIndexerHolder before) in
  let parked := Holder.run nat (fst (Holder.get nat 0%nat h0)) during in
  let h := fst (Holder.run nat Holder.newIndexerHolder history) in
  (forallb (Holder.is_quiet nat) before = true /\
   forallb (Holder.is_quiet nat) during = true /\
   snd (Holder.get nat 0%nat h0) = Holder.GetWaits /\
   Holder.returns_of nat 0%nat (snd parked) = [] /\
   snd (Holder.get_resume nat 0%nat (fst (Holder.step nat (fst parked)
                                                     (Holder.OpSet nat (Some 9%nat)))))
   = Holder.GetReturns nat (Some 9%nat)) /\
  (existsb (Holder.is_cancel nat) history = true /\
   existsb (Holder.is_set nat) history = false /\
   Holder.get nat 2%nat h = (h, Holder.GetReturns nat None)).
Proof.
  intros before during history h0 parked h.
  pose proof (@get_blocks_until_set_or_cancel nat) as [Hblock Hcancel].
  split.
  - destruct (Hblock before during 0%nat eq_refl eq_refl)
      as (A & B & _ & _ & E).
    split; [reflexivity|]. split; [reflexivity|].
    split; [exact A|]. split; [exact B|].
    exact (E (Holder.OpSet nat (Some 9%nat)) eq_refl).
  - split; [reflexivity|]. split; [reflexivity|].
    exact (Hcancel history 2%nat eq_refl eq_refl).
Defined.

(** C6 on issue 42: of its three comments only the regular one (type
    0) reaches the record. *)
Example UpdateIssueIndexer_issue42 :
  pushed (calls (UpdateIssueIndexer 0 Script.the_queue Script.issue42
                                    Script.quiet))
  = [DIndexerData
       (IndexerData.mk 42 7 "fix login bug" "steps to reproduce"
                       ["see patch attached"%string] false [])].
Proof. reflexivity. Qed.


(** C7 on repository 9, which has no issue: nothing is pushed. *)
Example DeleteRepoIssueIndexer_no_issue :
  DeleteRepoIssueIndexer Script.env Script.the_queue (Repository.mk 9)
                         (Script.populated false)
  = (tt, Script.populated false, [EvGetIssueIDsByRepoID 9 None]).
Proof. reflexivity. Qed.

(** C9 on the scripted repositories: with the signal set from the
    start the populator polls once and returns. *)
Lemma populator_polls_cancellation_witness :
  ctxDone Script.env (Script.populated true) = true /\
  populate_pages 0 Script.env Script.the_queue 3 1 (Script.populated true)
  = (Some tt, Script.populated true, [EvCtxDone true]).
Proof.
  split; [reflexivity|].
  exact (proj1 (proj2 (populator_polls_cancellation 0 Script.env
                         Script.the_queue))
               2%nat 1 (Script.populated true) eq_refl).
Defined.

(** C9 on the scripted repositories, signal never set: the calls of a
    complete run, without the pushes. *)
Example populateIssueIndexer_run :
  result (populateIssueIndexer 0 Script.env Script.the_queue 3
                               (Script.populated false)) = Some tt /\
  filter (fun e => negb (match e with EvPush _ _ => true | _ => false end))
         (calls (populateIssueIndexer 0 Script.env Script.the_queue 3
                                      (Script.populated false)))
  = [EvCtxDone false; EvSearchRepositoryByName 1 2 None;
     EvCtxDone false; EvIssues 7 None; EvLoadDiscussComments None;
     EvCtxDone false; EvIssues 8 None; EvLoadDiscussComments None;
     EvCtxDone false; EvSearchRepositoryByName 2 1 None;
     EvCtxDone false; EvIssues 9 None; EvLoadDiscussComments None;
     EvCtxDone false; EvSearchRepositoryByName 3 0 None].
Proof. split; reflexivity. Qed.




Example SearchIssuesByKeyword_sixty_hits :
  result (SearchIssuesByKeyword (Some Script.indexer) [7] "login"
                                Script.sixty_hits)
  = Returned (map Z.of_nat (seq 1 50), None).
Proof. reflexivity. Qed.

(** * Further properties *)

(** ** The queue handler: what the residual is made of *)

Section HandlerResidual.

Context {W : Type}.
Variable ix : Indexer W.

Lemma dead_deletes_In (data : list Datum) :
  forall log x, In x (dead_deletes data log) -> In x data.
Proof.
  induction data as [|[d|r] data IH]; intros log x H; cbn in H.
  - destruct H.
  - destruct (IndexerData.IsDelete d); [|right; eapply IH; exact H].
    destruct log as [|ev log]; [destruct H|].
    destruct ev as [ids [e|]| | | | | | | | |]; try (destruct H; fail).
    + destruct log as [|ev log]; [destruct H|].
      destruct ev as [| [|] | | | | | | | |]; try (destruct H; fail).
      * right. eapply IH. exact H.
      * destruct H as [<-|H]; [left; reflexivity|].
        right. eapply IH. exact H.
    + right. eapply IH. exact H.
  - right. eapply IH. exact H.
Qed.

Lemma dead_deletes_length (data : list Datum) :
  forall log,
    (length (dead_deletes data log) <= length (delete_records data))%nat.
Proof.
  induction data as [|[d|r] data IH]; intros log; cbn; auto.
  destruct (IndexerData.IsDelete d); [|apply IH].
  destruct log as [|ev log]; [cbn; lia|].
  destruct ev as [ids [e|]| | | | | | | | |]; cbn; try lia.
  - destruct log as [|ev log]; [cbn; lia|].
    destruct ev as [| [|] | | | | | | | |]; cbn; try lia.
    + specialize (IH log). lia.
    + specialize (IH log). lia.
  - specialize (IH log). lia.
Qed.

Lemma upsert_records_In (data : list Datum) (d : IndexerData.t) :
  In d (upsert_records data) -> In (DIndexerData d) data.
Proof.
  induction data as [|[d0|r] data IH]; cbn; auto.
  destruct (IndexerData.IsDelete d0); cbn; [auto|].
  intros [->|H]; auto.
Qed.

Lemma records_length (data : list Datum) :
  (length (delete_records data) + length (upsert_records data)
   <= length data)%nat.
Proof.
  induction data as [|[d|r] data IH]; cbn; [lia| |lia].
  destruct (IndexerData.IsDelete d); cbn; lia.
Qed.

Lemma upsert_records_dead_deletes (data : list Datum) :
  forall log, upsert_records (dead_deletes data log) = [].
Proof.
  intros log.
  pose proof (dead_deletes_all_delete data log) as H.
  induction (dead_deletes data log) as [|[d|r] l IH]; cbn in *; auto.
  - destruct (IndexerData.IsDelete d) eqn:Hd.
    + injection H as H. auto.
    + exfalso.
      assert (Hin : In (DIndexerData d) (filter is_delete_datum l)).
      { rewrite H. left. reflexivity. }
      apply filter_In in Hin. cbn in Hin. rewrite Hd in Hin.
      destruct Hin as [_ K]. discriminate K.
  - exfalso.
    assert (Hin : In (DOther r) (filter is_delete_datum l)).
    { rewrite H. left. reflexivity. }
    apply filter_In in Hin. destruct Hin as [_ K]. discriminate K.
Qed.

Lemma upsert_records_of_upserts (data : list Datum) :
  upsert_records (map DIndexerData (upsert_records data))
  = upsert_records data.
Proof.
  induction data as [|[d|r] data IH]; cbn; auto.
  destruct (IndexerData.IsDelete d) eqn:Hd; cbn; auto.
  rewrite Hd, IH. reflexivity.
Qed.

Lemma dead_deletes_decodable (data : list Datum) :
  forall log, forallb is_indexer_data (dead_deletes data log) = true.
Proof.
  intros log. apply forallb_forall. intros x Hx.
  rewrite <- dead_deletes_all_delete in Hx.
  apply filter_In in Hx. destruct Hx as [_ Hx].
  destruct x; [reflexivity|discriminate Hx].
Qed.

Lemma upserts_decodable (l : list IndexerData.t) :
  forallb is_indexer_data (map DIndexerData l) = true.
Proof.
  induction l; cbn; auto.
Qed.

(** X1.  Whatever [holder.get()] returned, the residual of a handler
    run is drawn from the batch: every datum of the residual is a datum
    of the batch, and the residual is not longer than the batch. *)
Theorem handler_residual_from_batch
        (indexer : option (Indexer W)) (data : list Datum) (w : W) :
  (forall x, In x (result (handler indexer data w)) -> In x data) /\
  (length (result (handler indexer data w)) <= length data)%nat.
Proof.
  destruct indexer as [ix0|]; [|cbn; auto].
  destruct (handler_cases ix0 data w) as (u & w1 & l1 & HL & Hend).
  destruct (handler_loop_spec ix0 data _ _ _ _ _ _ _ HL) as (_ & _ & _ & Ht).
  destruct (Ht []) as (A & _). cbn in A.
  pose proof (records_length data) as Hlen.
  pose proof (dead_deletes_length data (l1 ++ [])) as Hdl.
  remember (result (handler (Some ix0) data w)) as residual eqn:Hr.
  remember (calls (handler (Some ix0) data w)) as log eqn:Hl.
  clear Hr Hl.
  destruct Hend as [Hu | Hu | e0 alive Hu].
  - split.
    + intros x Hx. apply in_app_or in Hx. destruct Hx as [Hx|Hx].
      * rewrite A in Hx. eapply dead_deletes_In; eassumption.
      * apply in_map_iff in Hx. destruct Hx as (d & <- & Hd).
        apply upsert_records_In. exact Hd.
    + rewrite length_app, length_map, A. lia.
  - split; [intros x []|cbn; lia].
  - destruct alive; [split; [intros x []|cbn; lia]|].
    split.
    + intros x Hx. apply in_map_iff in Hx. destruct Hx as (d & <- & Hd).
      apply upsert_records_In. exact Hd.
    + rewrite length_map. lia.
Qed.

(** X2.  When a backend is available, a datum that is not an
    [IndexerData] is never redelivered: the residual holds
    [IndexerData] records only. *)
Theorem handler_drops_undecodable (data : list Datum) (w : W) :
  forallb is_indexer_data (result (handler (Some ix) data w)) = true.
Proof.
  destruct (handler_cases ix data w) as (u & w1 & l1 & HL & Hend).
  destruct (handler_loop_spec ix data _ _ _ _ _ _ _ HL) as (_ & _ & _ & Ht).
  destruct (Ht []) as (A & _). cbn in A.
  remember (result (handler (Some ix) data w)) as residual eqn:Hr.
  remember (calls (handler (Some ix) data w)) as log eqn:Hl.
  clear Hr Hl.
  destruct Hend as [Hu | Hu | e0 alive Hu].
  - rewrite forallb_app, A, dead_deletes_decodable, upserts_decodable.
    reflexivity.
  - reflexivity.
  - destruct alive; [reflexivity|apply upserts_decodable].
Qed.

(** X3.  The handler calls [Index] at most once.  With no backend
    from the holder it does not call it.  With a backend it calls it
    exactly once, on the upsert records of the batch, also when the
    batch has no upsert record at all, unless some [Delete] failed and
    the [Ping] right after it answered [false]: then it does not call
    it. *)
Theorem handler_indexes_once
        (indexer : option (Indexer W)) (data : list Datum) (w : W) :
  index_calls (calls (handler indexer data w))
  = match indexer with
    | None => []
    | Some _ =>
        if some_delete_failed_dead (calls (handler indexer data w))
        then []
        else [upsert_records data]
    end.
Proof.
  destruct indexer as [ix0|]; [|reflexivity].
  destruct (handler_cases ix0 data w) as (u & w1 & l1 & HL & Hend).
  destruct (handler_loop_spec ix0 data _ _ _ _ _ _ _ HL) as (_ & _ & Hx & Ht).
  remember (result (handler (Some ix0) data w)) as residual eqn:Hr.
  remember (calls (handler (Some ix0) data w)) as log eqn:Hl.
  clear Hr Hl.
  destruct Hend as [Hu | Hu | e0 alive Hu].
  - destruct (Ht []) as (A & _ & _ & D).
    rewrite app_nil_r in *. cbn in A, D. rewrite <- A in D.
    rewrite D, Hx. destruct u; [congruence|reflexivity].
  - destruct (Ht [EvIndex (upsert_records data) None]) as (A & _ & C & D).
    cbn in A. rewrite <- A, Hu in D. rewrite C, D. reflexivity.
  - destruct (Ht [EvIndex (upsert_records data) (Some e0); EvPing alive])
      as (A & _ & C & D).
    cbn in A. rewrite <- A, Hu in D. rewrite C, D.
    destruct alive; reflexivity.
Qed.

(** X4.  Whatever [holder.get()] returned, a non-empty residual carries
    every upsert record of the batch, in batch order: when anything is
    redelivered, no upsert is lost. *)
Theorem handler_residual_keeps_upserts
        (indexer : option (Indexer W)) (data : list Datum) (w : W) :
  result (handler indexer data w) <> [] ->
  upsert_records (result (handler indexer data w)) = upsert_records data.
Proof.
  destruct indexer as [ix0|]; [|cbn; auto].
  intros Hne.
  destruct (handler_cases ix0 data w) as (u & w1 & l1 & HL & Hend).
  destruct (handler_loop_spec ix0 data _ _ _ _ _ _ _ HL) as (_ & _ & _ & Ht).
  destruct (Ht []) as (A & _). cbn in A.
  remember (result (handler (Some ix0) data w)) as residual eqn:Hr.
  remember (calls (handler (Some ix0) data w)) as log eqn:Hl.
  clear Hr Hl.
  destruct Hend as [Hu | Hu | e0 alive Hu].
  - rewrite upsert_records_app, A, upsert_records_dead_deletes.
    apply upsert_records_of_upserts.
  - congruence.
  - destruct alive; [congruence|apply upsert_records_of_upserts].
Qed.

End HandlerResidual.

(** ** The queue handler: failures and probes *)

Section HandlerProbes.

Context {W : Type}.
Variable ix : Indexer W.

Lemma failures_app (l1 l2 : list Event) :
  failures (l1 ++ l2) = (failures l1 + failures l2)%nat.
Proof.
  induction l1 as [|e l1 IH]; [reflexivity|].
  destruct e as [ids [err|]| |b [err|]| | | | | | |]; cbn; rewrite IH; reflexivity.
Qed.

Lemma pings_app (l1 l2 : list Event) :
  pings (l1 ++ l2) = (pings l1 + pings l2)%nat.
Proof.
  induction l1 as [|e l1 IH]; [reflexivity|].
  destruct e; cbn; rewrite IH; reflexivity.
Qed.

(** In the loop every failed [Delete] is followed by one [Ping], and a
    loop without a failure leaves [unhandled] as it was. *)
Lemma handler_loop_probes (data : list Datum) :
  forall iData unhandled w iData' unhandled' w' log,
    handler_loop ix data iData unhandled w = (iData', unhandled', w', log) ->
    pings log = failures log /\
    (failures log = O -> unhandled' = unhandled).
Proof.
  induction data as [|datum rest IH];
    intros iData unhandled w iData' unhandled' w' log H.
  - cbn in H. injection H as <- <- <- <-. split; reflexivity.
  - destruct datum as [d|r]; cbn [handler_loop] in H.
    + destruct (IndexerData.IsDelete d).
      * unfold bind, call_Delete in H.
        destruct (Delete ix (IndexerData.IDs d) w) as [err w1].
        destruct err as [e|].
        -- unfold bind, call_Ping in H.
           destruct (Ping ix w1) as [alive w2].
           destruct alive.
           ++ destruct (handler_loop ix rest iData unhandled w2)
                as [[[i u] w3] l3] eqn:HL.
              injection H as <- <- <- <-.
              destruct (IH _ _ _ _ _ _ _ HL) as [A B].
              cbn. split; [congruence|discriminate].
           ++ destruct (handler_loop ix rest iData
                          (unhandled ++ [DIndexerData d]) w2)
                as [[[i u] w3] l3] eqn:HL.
              injection H as <- <- <- <-.
              destruct (IH _ _ _ _ _ _ _ HL) as [A B].
              cbn. split; [congruence|discriminate].
        -- destruct (handler_loop ix rest iData unhandled w1)
             as [[[i u] w3] l3] eqn:HL.
           injection H as <- <- <- <-.
           destruct (IH _ _ _ _ _ _ _ HL) as [A B].
           cbn. split; assumption.
      * exact (IH _ _ _ _ _ _ _ H).
    + exact (IH _ _ _ _ _ _ _ H).
Qed.

(** X5.  The handler probes the backend exactly once per failed call:
    the number of [Ping] calls of a run equals the number of [Delete]
    and [Index] calls of that run that returned an error. *)
Theorem handler_pings_once_per_failure (data : list Datum) (w : W) :
  pings (calls (handler (Some ix) data w))
  = failures (calls (handler (Some ix) data w)).
Proof.
  destruct (handler_cases ix data w) as (u & w1 & l1 & HL & Hend).
  destruct (handler_loop_probes data _ _ _ _ _ _ _ HL) as [A _].
  remember (result (handler (Some ix) data w)) as residual eqn:Hr.
  remember (calls (handler (Some ix) data w)) as log eqn:Hl.
  clear Hr Hl.
  destruct Hend as [Hu | Hu | e0 alive Hu].
  - exact A.
  - rewrite pings_app, failures_app, A. reflexivity.
  - rewrite pings_app, failures_app, A. reflexivity.
Qed.

End HandlerProbes.

Section HandlerCleanRun.

Context {W : Type}.

(** X6.  A run in which no [Delete] and no [Index] call returned an
    error: with a backend from the holder, it leaves nothing to
    redeliver, has deleted for every delete record, has indexed all
    upsert records in one call and has not probed the backend; with no
    backend, it has made no call at all and hands the whole batch
    back. *)
Theorem handler_clean_run
        (indexer : option (Indexer W)) (data : list Datum) (w : W) :
  failures (calls (handler indexer data w)) = O ->
  match indexer with
  | None => handler indexer data w = (data, w, [])
  | Some _ =>
      result (handler indexer data w) = [] /\
      delete_calls (calls (handler indexer data w))
        = map IndexerData.IDs (delete_records data) /\
      index_calls (calls (handler indexer data w)) = [upsert_records data] /\
      pings (calls (handler indexer data w)) = O
  end.
Proof.
  destruct indexer as [ix0|]; [|reflexivity].
  intros Hclean.
  destruct (handler_cases ix0 data w) as (u & w1 & l1 & HL & Hend).
  destruct (handler_loop_probes ix0 data _ _ _ _ _ _ _ HL) as [A B].
  destruct (handler_loop_spec ix0 data _ _ _ _ _ _ _ HL) as (_ & Hd & _ & Ht).
  remember (result (handler (Some ix0) data w)) as residual eqn:Hr.
  remember (calls (handler (Some ix0) data w)) as log eqn:Hl.
  clear Hr Hl.
  destruct Hend as [Hu | Hu | e0 alive Hu].
  - exfalso. apply Hu. apply B. exact Hclean.
  - destruct (Ht [EvIndex (upsert_records data) None]) as (_ & Bd & C & _).
    rewrite failures_app in Hclean. cbn in Hclean.
    rewrite Bd, C, Hd, pings_app, A. cbn. rewrite app_nil_r.
    repeat split; auto; lia.
  - exfalso. rewrite failures_app in Hclean. cbn in Hclean. lia.
Qed.

End HandlerCleanRun.

(** ** The indexer holder: what readers can get back *)

Section HolderReaders.

Context {I : Type}.

Lemma run_app (ops1 ops2 : list (Holder.op I)) :
  forall h : Holder.indexerHolder I,
    Holder.run I h (ops1 ++ ops2)
    = (fst (Holder.run I (fst (Holder.run I h ops1)) ops2),
       snd (Holder.run I h ops1)
       ++ snd (Holder.run I (fst (Holder.run I h ops1)) ops2)).
Proof.
  induction ops1 as [|o ops1 IH]; intros h.
  - cbn. destruct (Holder.run I h ops2). reflexivity.
  - cbn [app Holder.run].
    destruct (Holder.step I h o) as [h1 r1].
    rewrite IH.
    destruct (Holder.run I h1 ops1) as [h2 r2]. cbn [fst snd].
    destruct (Holder.run I h2 ops2) as [h3 r3]. cbn [fst snd].
    rewrite app_assoc. reflexivity.
Qed.

(** X7.  Once [set] has stored a backend and [set] is not called
    again, every [get] returns that backend in its first step, without
    parking; a [cancel] that comes afterwards does not take the backend
    away. *)
Theorem get_after_set_returns_backend
        (before after : list (Holder.op I)) (ix : I) (g : Holder.goroutine) :
  existsb (Holder.is_set I) after = false ->
  let h := fst (Holder.run I Holder.newIndexerHolder
                           (before ++ Holder.OpSet I (Some ix) :: after)) in
  Holder.get I g h = (h, Holder.GetReturns I (Some ix)).
Proof.
  intros Hafter h.
  assert (Hix : Holder.indexer I h = Some ix).
  { subst h. rewrite run_app. cbn [fst].
    cbn [Holder.run Holder.step].
    match goal with
    | |- context [Holder.run I ?h1 after] =>
        pose proof (run_without_set after h1 Hafter) as K;
        destruct (Holder.run I h1 after) as [h2 r2]
    end.
    cbn in *. exact K. }
  unfold Holder.get. rewrite Hix. reflexivity.
Qed.

Lemma step_keeps_nobody_parked (h : Holder.indexerHolder I) (o : Holder.op I) :
  nobody_parked_once_settled h ->
  nobody_parked_once_settled (fst (Holder.step I h o)).
Proof.
  unfold nobody_parked_once_settled.
  intros Hinv. destruct o as [g|g|ix|]; cbn.
  - unfold Holder.get.
    destruct (Holder.indexer I h) eqn:Hi, (Holder.cancelled I h) eqn:Hc;
      cbn; rewrite ?Hi, ?Hc; auto.
  - unfold Holder.get_resume.
    destruct (existsb (Nat.eqb g) (Holder.woken I h)); cbn; exact Hinv.
  - right. reflexivity.
  - right. reflexivity.
Qed.

(** X8.  In every state the holder can reach, a goroutine is parked in
    [get] only while the holder is empty and not cancelled: once a
    backend is stored or initialisation is cancelled, nobody is left
    waiting on the condition variable. *)
Theorem nobody_parked_once_ready_or_cancelled (ops : list (Holder.op I)) :
  let h := fst (Holder.run I Holder.newIndexerHolder ops) in
  (Holder.indexer I h <> None \/ Holder.cancelled I h = true) ->
  Holder.waiting I h = [].
Proof.
  assert (Hinv : forall (l : list (Holder.op I)) h0,
             nobody_parked_once_settled h0 ->
             nobody_parked_once_settled (fst (Holder.run I h0 l))).
  { induction l as [|o l IH]; intros h0 H0; [exact H0|].
    cbn [Holder.run].
    pose proof (step_keeps_nobody_parked h0 o H0) as H1.
    destruct (Holder.step I h0 o) as [h1 r1]. cbn [fst] in H1.
    specialize (IH h1 H1).
    destruct (Holder.run I h1 l) as [h2 r2]. exact IH. }
  intros h Hsettled.
  destruct (Hinv ops Holder.newIndexerHolder) as [[Hi Hc]|Hw].
  - right. reflexivity.
  - fold h in Hi, Hc. destruct Hsettled as [K|K]; congruence.
  - exact Hw.
Qed.

(** A [get] hands out what the holder stores. *)
Lemma step_returns_stored (h : Holder.indexerHolder I) (o : Holder.op I)
      (g : Holder.goroutine) (v : option I) :
  In (g, v) (snd (Holder.step I h o)) -> v = Holder.indexer I h.
Proof.
  destruct o as [g0|g0|ix|]; cbn.
  - unfold Holder.get.
    destruct (Holder.indexer I h) eqn:Hi, (Holder.cancelled I h);
      cbn; intros H;
      first [ destruct H as [H|[]]; injection H as _ <-; reflexivity
            | destruct H ].
  - unfold Holder.get_resume.
    destruct (existsb (Nat.eqb g0) (Holder.woken I h)); cbn; intros H;
      first [ destruct H as [H|[]]; injection H as _ <-; reflexivity
            | destruct H ].
  - intros [].
  - intros [].
Qed.

Lemma run_returns_stored_or_set (ops : list (Holder.op I)) :
  forall (h : Holder.indexerHolder I) g i,
    In (g, Some i) (snd (Holder.run I h ops)) ->
    Holder.indexer I h = Some i \/ In (Holder.OpSet I (Some i)) ops.
Proof.
  induction ops as [|o ops IH]; intros h g i Hin; [destruct Hin|].
  cbn [Holder.run] in Hin.
  pose proof (step_returns_stored h o g (Some i)) as Hstep.
  destruct (Holder.step I h o) as [h1 r1] eqn:Hs.
  specialize (IH h1 g i).
  destruct (Holder.run I h1 ops) as [h2 r2].
  cbn [fst snd] in *.
  apply in_app_or in Hin. destruct Hin as [Hin|Hin].
  - left. symmetry. apply Hstep. exact Hin.
  - destruct (IH Hin) as [K|K]; [|right; right; exact K].
    destruct o as [g0|g0|ix|]; cbn in Hs.
    + unfold Holder.get in Hs.
      destruct (Holder.indexer I h) eqn:Hi, (Holder.cancelled I h);
        injection Hs as <- _; cbn in K; left; congruence.
    + unfold Holder.get_resume in Hs.
      destruct (existsb (Nat.eqb g0) (Holder.woken I h));
        injection Hs as <- _; cbn in K; left; exact K.
    + injection Hs as <- _. cbn in K. right. left. congruence.
    + injection Hs as <- _. cbn in K. left. exact K.
Qed.

(** X9.  A backend returned by a [get] is one that was handed to [set]
    before. *)
Theorem get_returns_a_set_backend
        (ops : list (Holder.op I)) (g : Holder.goroutine) (i : I) :
  In (g, Some i) (snd (Holder.run I Holder.newIndexerHolder ops)) ->
  In (Holder.OpSet I (Some i)) ops.
Proof.
  intros Hin.
  destruct (run_returns_stored_or_set ops _ g i Hin) as [K|K];
    [discriminate K|exact K].
Qed.

Lemma run_never_nil (ops : list (Holder.op I)) :
  forall h : Holder.indexerHolder I,
    existsb (Holder.is_cancel I) ops = false ->
    existsb is_set_nil ops = false ->
    Holder.cancelled I h = false ->
    (Holder.indexer I h = None -> Holder.woken I h = []) ->
    forall g, ~ In (g, None) (snd (Holder.run I h ops)).
Proof.
  induction ops as [|o ops IH]; intros h Hc Hn Hcan Hw g Hin; [destruct Hin|].
  cbn in Hc, Hn.
  apply orb_false_iff in Hc. destruct Hc as [Hco Hc].
  apply orb_false_iff in Hn. destruct Hn as [Hno Hn].
  cbn [Holder.run] in Hin.
  destruct (Holder.step I h o) as [h1 r1] eqn:Hs.
  assert (Hnext : Holder.cancelled I h1 = false /\
                  (Holder.indexer I h1 = None -> Holder.woken I h1 = []) /\
                  ~ In (g, None) r1).
  { destruct o as [g0|g0|ix|]; cbn in Hs; try discriminate Hco.
    - unfold Holder.get in Hs. rewrite Hcan in Hs.
      destruct (Holder.indexer I h) eqn:Hi; injection Hs as <- <-.
      + split; [exact Hcan|]. split; [rewrite Hi; discriminate|].
        intros [K|[]]. discriminate K.
      + cbn. split; [reflexivity|]. split; [intros _; auto|]. intros [].
    - unfold Holder.get_resume in Hs.
      destruct (existsb (Nat.eqb g0) (Holder.woken I h)) eqn:Hex;
        injection Hs as <- <-.
      + destruct (Holder.indexer I h) eqn:Hi.
        * cbn. rewrite ?Hi. split; [exact Hcan|].
          split; [discriminate|]. intros [K|[]]. discriminate K.
        * rewrite (Hw eq_refl) in Hex. discriminate Hex.
      + split; [exact Hcan|]. split; [exact Hw|]. intros [].
    - injection Hs as <- <-. cbn.
      destruct ix as [i|]; [|discriminate Hno].
      split; [exact Hcan|]. split; [discriminate|]. intros []. }
  destruct Hnext as (Hcan1 & Hw1 & Hr1).
  specialize (IH h1 Hc Hn Hcan1 Hw1 g).
  destruct (Holder.run I h1 ops) as [h2 r2].
  cbn [fst snd] in *.
  apply in_app_or in Hin. destruct Hin as [Hin|Hin]; auto.
Qed.

(** X10.  As long as [cancel] is not called and [set] is not called
    with a nil backend, no [get] ever returns nil: a reader either
    waits or gets a backend. *)
Theorem get_never_nil_without_cancel
        (ops : list (Holder.op I)) (g : Holder.goroutine) :
  existsb (Holder.is_cancel I) ops = false ->
  existsb is_set_nil ops = false ->
  ~ In (g, None) (snd (Holder.run I Holder.newIndexerHolder ops)).
Proof.
  intros Hc Hn.
  apply (run_never_nil ops Holder.newIndexerHolder Hc Hn eq_refl).
  intros _. reflexivity.
Qed.

End HolderReaders.

(** ** The entry points behind a settled holder *)

Section SettledHolder.

Context {W : Type}.

(** X11.  After any history of the holder that contains a [cancel] and
    no [set], [get] returns at once and what it returns makes the three
    consumers degrade without touching a backend: the handler hands the
    whole batch back, [SearchIssuesByKeyword] returns an error and no
    ids, and [IsAvailable] answers [false]. *)
Theorem cancelled_holder_degrades
        (ops : list (Holder.op (Indexer W))) (g : Holder.goroutine)
        (data : list Datum) (repoIDs : list Z) (keyword : string) (w : W) :
  existsb (Holder.is_cancel (Indexer W)) ops = true ->
  existsb (Holder.is_set (Indexer W)) ops = false ->
  exists indexer,
    snd (Holder.get (Indexer W) g
           (fst (Holder.run (Indexer W) Holder.newIndexerHolder ops)))
      = Holder.GetReturns (Indexer W) indexer /\
    handler indexer data w = (data, w, []) /\
    (exists e, SearchIssuesByKeyword indexer repoIDs keyword w
               = (Returned ([], Some e), w, [])) /\
    IsAvailable indexer w = (false, w, []).
Proof.
  intros Hc Hs.
  pose proof (run_with_cancel ops Holder.newIndexerHolder Hc) as Hcan.
  pose proof (run_without_set ops Holder.newIndexerHolder Hs) as Hix.
  cbn in Hix.
  exists None. split.
  - unfold Holder.get. rewrite Hix, Hcan. reflexivity.
  - split; [reflexivity|]. split; [|reflexivity].
    eexists. reflexivity.
Qed.

(** X12.  After any history of the holder in which [set] stored a
    backend and was not called again, [get] returns at once, and with
    what it returns [IsAvailable] is the backend's own [Ping] answer and
    [SearchIssuesByKeyword] asks that backend, with limit 50 and
    offset 0. *)
Theorem ready_holder_serves
        (before after : list (Holder.op (Indexer W))) (ix : Indexer W)
        (g : Holder.goroutine) (repoIDs : list Z) (keyword : string) (w : W) :
  existsb (Holder.is_set (Indexer W)) after = false ->
  exists indexer,
    snd (Holder.get (Indexer W) g
           (fst (Holder.run (Indexer W) Holder.newIndexerHolder
                            (before ++ Holder.OpSet _ (Some ix) :: after))))
      = Holder.GetReturns (Indexer W) indexer /\
    IsAvailable indexer w
      = (fst (Ping ix w), snd (Ping ix w), [EvPing (fst (Ping ix w))]) /\
    calls (SearchIssuesByKeyword indexer repoIDs keyword w)
      = [EvSearch keyword repoIDs 50 0] /\
    world (SearchIssuesByKeyword indexer repoIDs keyword w)
      = snd (Search ix keyword repoIDs 50 0 w).
Proof.
  intros Hafter.
  exists (Some ix). split.
  - rewrite run_app. cbn [fst]. cbn [Holder.run Holder.step].
    match goal with
    | |- context [Holder.run (Indexer W) ?h1 after] =>
        pose proof (run_without_set after h1 Hafter) as K;
        destruct (Holder.run (Indexer W) h1 after) as [h2 r2]
    end.
    cbn in *. unfold Holder.get. rewrite K. reflexivity.
  - split.
    + unfold IsAvailable, call_Ping. destruct (Ping ix w). reflexivity.
    + unfold SearchIssuesByKeyword, bind, call_Search, calls, world.
      destruct (Search ix keyword repoIDs 50 0 w) as [[res [e|]] w1];
        [split; reflexivity|].
      destruct res; split; reflexivity.
Qed.

End SettledHolder.

(** ** The mutation entry points: errors and what is pushed *)

Section MutationMore.

Context {W : Type}.
Variable CommentTypeComment : Z.
Variable env : Env W.
Variable q : Queue W.

Lemma UpdateIssueIndexer_pushes_upsert_of (issue : Issue.t) (w : W) :
  exists err,
    calls (UpdateIssueIndexer CommentTypeComment q issue w)
    = [EvPush (DIndexerData (upsert_of CommentTypeComment issue)) err].
Proof.
  unfold UpdateIssueIndexer, bind, call_Push, calls, upsert_of.
  rewrite collect_comments_spec. cbn [app].
  match goal with
  | |- context [Push q ?x w] => destruct (Push q x w) as [e w1]
  end.
  exists e. reflexivity.
Qed.

Lemma update_issues_pushed (iss : list Issue.t) :
  forall w,
    pushed (calls (update_issues CommentTypeComment q iss w))
    = map (fun issue => DIndexerData (upsert_of CommentTypeComment issue)) iss
    /\
    forallb repo_work_call (calls (update_issues CommentTypeComment q iss w))
    = true.
Proof.
  induction iss as [|issue iss IH]; intros w; [split; reflexivity|].
  cbn [update_issues]. unfold bind.
  destruct (UpdateIssueIndexer_pushes_upsert_of issue w) as [err Hc].
  destruct (UpdateIssueIndexer CommentTypeComment q issue w) as [[u w1] l1].
  unfold calls in Hc. cbn [snd] in Hc. subst l1.
  destruct (IH w1) as [Hp Hk].
  destruct (update_issues CommentTypeComment q iss w1) as [[u2 w2] l2].
  unfold calls in *. cbn [snd] in *. cbn.
  rewrite Hp. split; [reflexivity|exact Hk].
Qed.

(** After its [Issues] call, [UpdateRepoIndexer] only loads comments
    and pushes. *)
Lemma UpdateRepoIndexer_work (repo : Repository.t) (w : W) :
  exists err l,
    calls (UpdateRepoIndexer CommentTypeComment env q repo w)
      = EvIssues (Repository.ID repo) err :: l /\
    forallb repo_work_call l = true.
Proof.
  unfold UpdateRepoIndexer, bind, call_Issues, call_LoadDiscussComments, calls.
  destruct (Issues env (Repository.ID repo) w) as [[iss [e|]] w1]; cbn.
  - exists (Some e), []. split; reflexivity.
  - destruct (LoadDiscussComments env iss w1) as [[iss' [e|]] w2]; cbn.
    + exists None, [EvLoadDiscussComments (Some e)]. split; reflexivity.
    + destruct (update_issues_pushed iss' w2) as [_ Hk].
      destruct (update_issues CommentTypeComment q iss' w2) as [[u w3] l3].
      unfold calls in Hk. cbn in *.
      exists None, (EvLoadDiscussComments None :: l3).
      split; [reflexivity|exact Hk].
Qed.


(** X14.  When the issue listing fails, [UpdateRepoIndexer] stops after
    that one call; when the comment loading fails, it stops after these
    two calls.  In both cases nothing is pushed. *)
Theorem UpdateRepoIndexer_stops_on_error
        (repo : Repository.t) (w : W) :
  (forall e, snd (fst (Issues env (Repository.ID repo) w)) = Some e ->
             calls (UpdateRepoIndexer CommentTypeComment env q repo w)
             = [EvIssues (Repository.ID repo) (Some e)]) /\
  (forall iss w1 e,
      Issues env (Repository.ID repo) w = ((iss, None), w1) ->
      snd (fst (LoadDiscussComments env iss w1)) = Some e ->
      calls (UpdateRepoIndexer CommentTypeComment env q repo w)
      = [EvIssues (Repository.ID repo) None;
         EvLoadDiscussComments (Some e)]).
Proof.
  split.
  - intros e He.
    unfold UpdateRepoIndexer, bind, call_Issues, calls.
    destruct (Issues env (Repository.ID repo) w) as [[iss err] w1].
    cbn in He. subst err. reflexivity.
  - intros iss w1 e HI He.
    unfold UpdateRepoIndexer, bind, call_Issues, call_LoadDiscussComments, calls.
    rewrite HI. cbn [fst snd].
    destruct (LoadDiscussComments env iss w1) as [[iss' err] w2].
    cbn in He. subst err. reflexivity.
Qed.


End MutationMore.

(** ** The populator: pages, returns and what it leaves alone *)

Section PopulatorMore.

Context {W : Type}.
Variable CommentTypeComment : Z.
Variable env : Env W.
Variable q : Queue W.

Lemma fetched_pages_app (l1 l2 : list Event) :
  fetched_pages (l1 ++ l2) = fetched_pages l1 ++ fetched_pages l2.
Proof.
  induction l1 as [|e l1 IH]; [reflexivity|].
  destruct e; cbn; rewrite ?IH; reflexivity.
Qed.

Lemma issues_calls_app (l1 l2 : list Event) :
  issues_calls (l1 ++ l2) = issues_calls l1 ++ issues_calls l2.
Proof.
  induction l1 as [|e l1 IH]; [reflexivity|].
  destruct e; cbn; rewrite ?IH; reflexivity.
Qed.

Lemma repo_work_quiet (l : list Event) :
  forallb repo_work_call l = true ->
  fetched_pages l = [] /\
  forallb (fun e => negb (backend_call e)) l = true.
Proof.
  induction l as [|e l IH]; intros H; [split; reflexivity|].
  cbn in H. apply andb_true_iff in H. destruct H as [He Hl].
  destruct (IH Hl) as [A B].
  destruct e; try discriminate He; cbn; auto.
Qed.

Lemma populate_repos_more (repos : list Repository.t) :
  forall w stopped w' l,
    populate_repos CommentTypeComment env q repos w = (stopped, w', l) ->
    fetched_pages l = [] /\
    forallb (fun e => negb (backend_call e)) l = true /\
    Forall (fun x => exists issue, upsert_shaped issue x) (pushed l) /\
    (stopped = true -> exists pre, l = pre ++ [EvCtxDone true]).
Proof.
  induction repos as [|repo rest IH]; intros w stopped w' l H.
  - cbn in H. injection H as <- <- <-.
    repeat split; try constructor. discriminate.
  - cbn [populate_repos] in H. unfold bind at 1 in H.
    unfold call_ctxDone in H.
    destruct (ctxDone env w) eqn:Hdone.
    + cbn in H. injection H as <- <- <-.
      repeat split; try constructor. intros _. exists []. reflexivity.
    + unfold bind in H.
      destruct (UpdateRepoIndexer_work CommentTypeComment env q repo w)
        as (err & l0 & Hc & Hk).
      destruct (UpdateRepoIndexer_calls CommentTypeComment env q repo w)
        as (err' & l0' & Hc' & _ & Hshape).
      destruct (UpdateRepoIndexer CommentTypeComment env q repo w)
        as [[u w1] l1].
      cbn in Hc, Hc'. subst l1. injection Hc' as _ <-.
      destruct (populate_repos CommentTypeComment env q rest w1)
        as [[stopped2 w2] l2] eqn:Hrest.
      injection H as <- <- <-.
      destruct (IH _ _ _ _ Hrest) as (A & B & Sh & C).
      destruct (repo_work_quiet l0 Hk) as [A0 B0].
      split; [cbn; rewrite fetched_pages_app, A0, A; reflexivity|].
      split; [cbn; rewrite forallb_app, B0, B; reflexivity|].
      split.
      * cbn. rewrite pushed_app. apply Forall_app. split; assumption.
      * intros Hs. destruct (C Hs) as [pre ->].
        exists (EvCtxDone false :: EvIssues (Repository.ID repo) err
                  :: l0 ++ pre).
        cbn. rewrite <- app_assoc. reflexivity.
Qed.

Lemma populate_pages_more (fuel : nat) :
  forall page w res w' l,
    populate_pages CommentTypeComment env q fuel page w = (res, w', l) ->
    (exists n, (n <= fuel)%nat /\ fetched_pages l = consecutive page n) /\
    forallb (fun e => negb (backend_call e)) l = true /\
    Forall (fun x => exists issue, upsert_shaped issue x) (pushed l) /\
    (res = Some tt ->
     exists pre,
       l = pre ++ [EvCtxDone true] \/
       exists p, l = pre ++ [EvSearchRepositoryByName p O None]).
Proof.
  induction fuel as [|fuel IH]; intros page w res w' l H.
  - cbn in H. injection H as <- <- <-.
    split; [exists O; split; [lia|reflexivity]|].
    repeat split; try constructor. discriminate.
  - cbn [populate_pages] in H. unfold bind at 1 in H.
    unfold call_ctxDone in H.
    destruct (ctxDone env w) eqn:Hdone.
    + cbn in H. injection H as <- <- <-.
      split; [exists O; split; [lia|reflexivity]|].
      repeat split; try constructor.
      intros _. exists []. left. reflexivity.
    + unfold bind at 1 in H. unfold call_SearchRepositoryByName in H.
      destruct (SearchRepositoryByName env page w) as [[repos [e|]] w1].
      * destruct (populate_pages CommentTypeComment env q fuel (int_succ page) w1)
          as [[res2 w2] l2] eqn:Hrec.
        injection H as <- <- <-.
        destruct (IH _ _ _ _ _ Hrec) as ((n & Hn & A) & B & Sh & C).
        split; [exists (S n); split; [lia|cbn; rewrite A; reflexivity]|].
        split; [exact B|]. split; [exact Sh|].
        intros Hres. destruct (C Hres) as [pre [->|[p ->]]].
        -- exists (EvCtxDone false
                     :: EvSearchRepositoryByName page (length repos) (Some e)
                     :: pre).
           left. reflexivity.
        -- exists (EvCtxDone false
                     :: EvSearchRepositoryByName page (length repos) (Some e)
                     :: pre).
           right. exists p. reflexivity.
      * destruct repos as [|repo rest].
        { cbn in H. injection H as <- <- <-.
          split; [exists 1%nat; split; [lia|reflexivity]|].
          repeat split; try constructor.
          intros _. exists [EvCtxDone false]. right. exists page. reflexivity. }
        cbn [fst length Nat.eqb] in H. unfold bind in H.
        destruct (populate_repos CommentTypeComment env q (repo :: rest) w1)
          as [[stopped w2] l2] eqn:Hin.
        destruct (populate_repos_more _ _ _ _ _ Hin) as (A2 & B2 & S2 & C2).
        destruct stopped.
        -- cbn in H. injection H as <- <- <-.
           rewrite app_nil_r.
           split; [exists 1%nat; split; [lia|cbn; rewrite A2; reflexivity]|].
           split; [exact B2|]. split; [exact S2|].
           intros _. destruct (C2 eq_refl) as [pre ->].
           exists (EvCtxDone false
                     :: EvSearchRepositoryByName page (S (length rest)) None
                     :: pre).
           left. reflexivity.
        -- destruct (populate_pages CommentTypeComment env q fuel (int_succ page) w2)
             as [[res3 w3] l3] eqn:Hrec.
           injection H as <- <- <-.
           destruct (IH _ _ _ _ _ Hrec) as ((n & Hn & A) & B & Sh & C).
           split.
           { exists (S n). split; [lia|].
             cbn. rewrite fetched_pages_app, A2, A. reflexivity. }
           split; [cbn; rewrite forallb_app, B2, B; reflexivity|].
           split.
           { cbn. rewrite pushed_app. apply Forall_app. split; assumption. }
           intros Hres. destruct (C Hres) as [pre [->|[p ->]]].
           ++ exists (EvCtxDone false
                        :: EvSearchRepositoryByName page (S (length rest)) None
                        :: l2 ++ pre).
              left. cbn. rewrite <- app_assoc. reflexivity.
           ++ exists (EvCtxDone false
                        :: EvSearchRepositoryByName page (S (length rest)) None
                        :: l2 ++ pre).
              right. exists p. cbn. rewrite <- app_assoc. reflexivity.
Qed.

Lemma int_succ_in_range (page : Z) :
  int_min <= page -> page + 1 <= int_max -> int_succ page = page + 1.
Proof.
  unfold int_succ, int_wrap, int_min, int_max, int_bits.
  change (2 ^ (32 - 1)) with 2147483648.
  change (2 ^ 32) with 4294967296.
  intros Hlo Hhi. rewrite Z.mod_small; lia.
Qed.

Lemma consecutive_in_range (n : nat) :
  forall start,
    int_min <= start -> start + Z.of_nat n <= int_max + 1 ->
    consecutive start n = map (fun i => start + Z.of_nat i) (seq 0 n).
Proof.
  induction n as [|n IH]; intros start Hlo Hhi; [reflexivity|].
  cbn [consecutive seq map]. rewrite Z.add_0_r. f_equal.
  destruct n as [|n]; [reflexivity|].
  rewrite int_succ_in_range by lia.
  rewrite IH by lia.
  rewrite <- seq_shift, map_map.
  apply map_ext. intros i. lia.
Qed.

(** X16.  The pages the populator fetches are the successive values of
    its page counter: whether a fetch failed or not, the next fetch is
    for the counter after [page++].  As long as the counter stays
    within the range of [int], these are the pages [page], [page + 1],
    and so on, each fetched once, so a page whose fetch failed is not
    fetched again. *)
Theorem populator_fetches_consecutive_pages (fuel : nat) (page : Z) (w : W) :
  exists n,
    (n <= fuel)%nat /\
    fetched_pages (calls (populate_pages CommentTypeComment env q fuel page w))
    = consecutive page n /\
    (int_min <= page -> page + Z.of_nat fuel <= int_max + 1 ->
     fetched_pages (calls (populate_pages CommentTypeComment env q fuel page w))
     = map (fun i => page + Z.of_nat i) (seq 0 n)).
Proof.
  destruct (populate_pages CommentTypeComment env q fuel page w)
    as [[res w'] l] eqn:H.
  destruct (proj1 (populate_pages_more fuel page w res w' l H))
    as (n & Hn & Hpages).
  exists n. split; [exact Hn|]. split; [exact Hpages|].
  intros Hlo Hhi. unfold calls. cbn [snd]. rewrite Hpages.
  apply consecutive_in_range; lia.
Qed.

(** X17.  The populator returns only right after a [ctx.Done()] poll
    that answered [true] or right after a page fetch that returned no
    repository and no error. *)
Theorem populator_returns_on_cancel_or_last_page
        (fuel : nat) (page : Z) (w : W) :
  result (populate_pages CommentTypeComment env q fuel page w) = Some tt ->
  exists pre,
    calls (populate_pages CommentTypeComment env q fuel page w)
      = pre ++ [EvCtxDone true] \/
    exists p,
      calls (populate_pages CommentTypeComment env q fuel page w)
        = pre ++ [EvSearchRepositoryByName p O None].
Proof.
  destruct (populate_pages CommentTypeComment env q fuel page w)
    as [[res w'] l] eqn:H.
  exact (proj2 (proj2 (proj2 (populate_pages_more fuel page w res w' l H)))).
Qed.

(** X18.  The populator works through the queue only: it makes no call
    on the index backend, and everything it pushes is a single-item
    upsert, never a delete record. *)
Theorem populator_only_pushes_upserts (fuel : nat) (page : Z) (w : W) :
  forallb (fun e => negb (backend_call e))
          (calls (populate_pages CommentTypeComment env q fuel page w)) = true /\
  Forall (fun x => exists issue, upsert_shaped issue x)
         (pushed (calls (populate_pages CommentTypeComment env q fuel page w))).
Proof.
  destruct (populate_pages CommentTypeComment env q fuel page w)
    as [[res w'] l] eqn:H.
  destruct (populate_pages_more fuel page w res w' l H) as (_ & B & Sh & _).
  split; assumption.
Qed.

(** X19.  With a context that is never cancelled and a database whose
    page fetch fails every time, the populator does not return: every
    iteration fetches the next page and nothing else happens, no
    repository is looked at and nothing is pushed. *)
Theorem populator_spins_on_failing_database :
  (forall w, ctxDone env w = false) ->
  (forall page w, snd (fst (SearchRepositoryByName env page w)) <> None) ->
  forall fuel page w,
    result (populate_pages CommentTypeComment env q fuel page w) = None /\
    fetched_pages (calls (populate_pages CommentTypeComment env q fuel page w))
      = consecutive page fuel /\
    issues_calls (calls (populate_pages CommentTypeComment env q fuel page w))
      = [] /\
    pushed (calls (populate_pages CommentTypeComment env q fuel page w)) = [].
Proof.
  intros Hctx Hdb fuel page w.
  destruct (populate_pages CommentTypeComment env q fuel page w)
    as [[res w'] l] eqn:H.
  unfold result, calls. cbn [fst snd].
  revert page w res w' l H.
  induction fuel as [|fuel IH]; intros page w res w' l H.
  - cbn in H. injection H as <- <- <-. repeat split.
  - cbn [populate_pages] in H. unfold bind at 1 in H.
    unfold call_ctxDone in H. rewrite Hctx in H.
    unfold bind at 1 in H. unfold call_SearchRepositoryByName in H.
    specialize (Hdb page w).
    destruct (SearchRepositoryByName env page w) as [[repos [e|]] w1];
      [|exfalso; apply Hdb; reflexivity].
    destruct (populate_pages CommentTypeComment env q fuel (int_succ page) w1)
      as [[res2 w2] l2] eqn:Hrec.
    injection H as <- <- <-.
    destruct (IH _ _ _ _ _ Hrec) as (A & B & C & D).
    cbn. rewrite B. auto.
Qed.

End PopulatorMore.

(** ** Start-up *)

Section StartupFacts.

Context {I : Type}.

(** X20.  Whatever the configured type and whatever building the
    backend did, a start-up that is not fatal has stored the backend,
    so that a [get] returns it at once; population is requested only by
    a start-up that is not fatal, whose type gets the handler queue and
    whose backend was initialised without finding an existing index;
    and the [db] type never fails, never populates and runs on the
    dummy queue. *)
Theorem startup_publishes_backend
        (IssueType : string) (bleve : Startup.bleve_result)
        (es_new : option error) (es_init : bool * option error)
        (backend : I) (h : Holder.indexerHolder I) (g : Holder.goroutine) :
  let r := Startup.init_backend I IssueType bleve es_new es_init backend h in
  (Startup.fatal I r = false ->
   Holder.get I g (Startup.holder I r)
   = (Startup.holder I r, Holder.GetReturns I (Some backend))) /\
  (Startup.populate I r = true ->
   Startup.fatal I r = false /\
   Startup.create_queue IssueType true = Startup.HandlerQueue /\
   (bleve = Startup.BleveInit false None \/ es_init = (false, None))) /\
  (IssueType = "db"%string ->
   Startup.fatal I r = false /\
   Startup.populate I r = false /\
   forall created,
     Startup.create_queue IssueType created = Startup.DummyQueue).
Proof.
  cbv zeta. unfold Startup.init_backend, Startup.create_queue.
  destruct (String.eqb IssueType "bleve") eqn:Hb.
  - apply String.eqb_eq in Hb. subst IssueType.
    destruct bleve as [[|] [e|]|]; cbn;
      (split; [intros H; try discriminate H; reflexivity|]);
      (split; [intros H; try discriminate H; auto|]);
      intros H; discriminate H.
  - destruct (String.eqb IssueType "elasticsearch") eqn:He.
    + apply String.eqb_eq in He. subst IssueType.
      destruct es_new as [e|]; [|destruct es_init as [[|] [e|]]]; cbn;
        (split; [intros H; try discriminate H; reflexivity|]);
        (split; [intros H; try discriminate H; auto|]);
        intros H; discriminate H.
    + destruct (String.eqb IssueType "db") eqn:Hd.
      * cbn. split; [reflexivity|]. split; [discriminate|]. auto.
      * cbn. split; [discriminate|]. split; [discriminate|].
        intros ->. discriminate Hd.
Qed.

(** X21.  A fatal start-up of the [bleve] type or of an unknown type
    has cancelled the holder first, so that a [get] on a holder that
    held no backend returns nil at once; a fatal start-up of the
    [elasticsearch] type leaves the holder as it was. *)
Theorem startup_fatal_paths
        (IssueType : string) (bleve : Startup.bleve_result)
        (es_new : option error) (es_init : bool * option error)
        (backend : I) (h : Holder.indexerHolder I) (g : Holder.goroutine) :
  Holder.indexer I h = None ->
  Startup.fatal I (Startup.init_backend I IssueType bleve es_new es_init
                                        backend h) = true ->
  let r := Startup.init_backend I IssueType bleve es_new es_init backend h in
  if String.eqb IssueType "elasticsearch"
  then Startup.holder I r = h
  else Holder.get I g (Startup.holder I r)
       = (Startup.holder I r, Holder.GetReturns I None).
Proof.
  intros Hnil. cbv zeta. unfold Startup.init_backend.
  destruct (String.eqb IssueType "bleve") eqn:Hb.
  - apply String.eqb_eq in Hb. subst IssueType. cbn [String.eqb Ascii.eqb Bool.eqb].
    destruct bleve as [[|] [e|]|]; cbn; intros H; try discriminate H;
      unfold Holder.get; cbn; rewrite Hnil; reflexivity.
  - destruct (String.eqb IssueType "elasticsearch") eqn:He.
    + destruct es_new as [e|]; [|destruct es_init as [[|] [e|]]]; cbn;
        intros H; try discriminate H; reflexivity.
    + destruct (String.eqb IssueType "db") eqn:Hd; cbn; intros H;
        [discriminate H|].
      unfold Holder.get. cbn. rewrite Hnil. reflexivity.
Qed.

End StartupFacts.

(** ** The further properties on the scripted world *)

(** X3 on a delete followed by an upsert, the [Delete] failing while
    the backend answers [Ping]: [Index] is called on the upsert. *)
Lemma handler_indexes_once_witness :
  let w := Script.with_backend [Some "rejected"%string] [true] [] in
  let r := handler (Some Script.indexer) Script.delete_then_upsert w in
  some_delete_failed_dead (calls r) = false /\
  index_calls (calls r) = [upsert_records Script.delete_then_upsert].
Proof.
  intros w r. split; [reflexivity|].
  exact (handler_indexes_once (Some Script.indexer)
           Script.delete_then_upsert w).
Defined.

(** X3 on the empty batch: [Index] is called, with no record; and with
    no backend: no call. *)
Example handler_indexes_empty_batch :
  index_calls (calls (handler (Some Script.indexer) [] Script.quiet)) = [[]] /\
  index_calls (calls (handler None Script.five_upserts Script.quiet)) = [].
Proof. split; reflexivity. Qed.

(** X4 on a delete followed by an upsert, the [Delete] failing with the
    backend dead. *)
Lemma handler_residual_keeps_upserts_witness :
  let w := Script.with_backend [Some "down"%string] [false] [] in
  let r := handler (Some Script.indexer) Script.delete_then_upsert w in
  result r <> [] /\
  upsert_records (result r) = upsert_records Script.delete_then_upsert.
Proof.
  intros w r.
  assert (H : result r <> []) by (vm_compute; discriminate).
  split; [exact H|].
  exact (handler_residual_keeps_upserts (Some Script.indexer)
           Script.delete_then_upsert w H).
Defined.

(** X6 on two deletes around an upsert, with a backend that accepts
    everything. *)
Lemma handler_clean_run_witness :
  let r := handler (Some Script.indexer) Script.two_deletes Script.quiet in
  failures (calls r) = O /\
  (result r = [] /\
   delete_calls (calls r)
     = map IndexerData.IDs (delete_records Script.two_deletes) /\
   index_calls (calls r) = [upsert_records Script.two_deletes] /\
   pings (calls r) = O).
Proof.
  intros r. split; [reflexivity|].
  exact (handler_clean_run (Some Script.indexer) Script.two_deletes
           Script.quiet eq_refl).
Defined.

(** X7: goroutine 1 parks, backend 9 is stored, initialisation is then
    cancelled and goroutine 1 returns; goroutine 2 still gets backend 9. *)
Lemma get_after_set_returns_backend_witness :
  let before := [Holder.OpGet (I := nat) 1%nat] in
  let after := [Holder.OpCancel (I := nat); Holder.OpResume 1%nat] in
  let h := fst (Holder.run nat Holder.newIndexerHolder
                           (before ++ Holder.OpSet nat (Some 9%nat) :: after)) in
  existsb (Holder.is_set nat) after = false /\
  Holder.get nat 2%nat h = (h, Holder.GetReturns nat (Some 9%nat)).
Proof.
  intros before after h. split; [reflexivity|].
  exact (get_after_set_returns_backend before after 9%nat 2%nat eq_refl).
Defined.

(** X8: two goroutines park, then initialisation is cancelled. *)
Lemma nobody_parked_once_ready_or_cancelled_witness :
  let ops := [Holder.OpGet (I := nat) 1%nat; Holder.OpGet 2%nat;
              Holder.OpCancel] in
  let h := fst (Holder.run nat Holder.newIndexerHolder ops) in
  (Holder.indexer nat h <> None \/ Holder.cancelled nat h = true) /\
  Holder.waiting nat h = [].
Proof.
  intros ops h.
  assert (H : Holder.indexer nat h <> None \/ Holder.cancelled nat h = true)
    by (right; reflexivity).
  split; [exact H|].
  exact (nobody_parked_once_ready_or_cancelled ops H).
Defined.

(** X9: goroutine 1 parks, backend 9 is stored, goroutine 1 returns it. *)
Lemma get_returns_a_set_backend_witness :
  let ops := [Holder.OpGet (I := nat) 1%nat; Holder.OpSet nat (Some 9%nat);
              Holder.OpResume 1%nat] in
  In (1%nat, Some 9%nat) (snd (Holder.run nat Holder.newIndexerHolder ops)) /\
  In (Holder.OpSet nat (Some 9%nat)) ops.
Proof.
  intros ops.
  assert (H : In (1%nat, Some 9%nat)
                 (snd (Holder.run nat Holder.newIndexerHolder ops)))
    by (left; reflexivity).
  split; [exact H|].
  exact (get_returns_a_set_backend ops 1%nat 9%nat H).
Defined.

(** X10 on the same history, followed by a [get] of goroutine 2. *)
Lemma get_never_nil_without_cancel_witness :
  let ops := [Holder.OpGet (I := nat) 1%nat; Holder.OpSet nat (Some 9%nat);
              Holder.OpResume 1%nat; Holder.OpGet 2%nat] in
  existsb (Holder.is_cancel nat) ops = false /\
  existsb is_set_nil ops = false /\
  ~ In (1%nat, None) (snd (Holder.run nat Holder.newIndexerHolder ops)).
Proof.
  intros ops. split; [reflexivity|]. split; [reflexivity|].
  exact (get_never_nil_without_cancel ops 1%nat eq_refl eq_refl).
Defined.

(** X11 on the scripted world: goroutine 1 parks and initialisation is
    cancelled. *)
Lemma cancelled_holder_degrades_witness :
  let ops := [Holder.OpGet (I := Indexer Script.t) 1%nat; Holder.OpCancel] in
  existsb (Holder.is_cancel (Indexer Script.t)) ops = true /\
  existsb (Holder.is_set (Indexer Script.t)) ops = false /\
  exists indexer,
    snd (Holder.get (Indexer Script.t) 2%nat
           (fst (Holder.run (Indexer Script.t) Holder.newIndexerHolder ops)))
      = Holder.GetReturns (Indexer Script.t) indexer /\
    handler indexer Script.five_upserts Script.quiet
      = (Script.five_upserts, Script.quiet, []) /\
    (exists e, SearchIssuesByKeyword indexer [7] "login" Script.quiet
               = (Returned ([], Some e), Script.quiet, [])) /\
    IsAvailable indexer Script.quiet = (false, Script.quiet, []).
Proof.
  intros ops. split; [reflexivity|]. split; [reflexivity|].
  exact (cancelled_holder_degrades ops 2%nat Script.five_upserts [7] "login"
           Script.quiet eq_refl eq_refl).
Defined.

(** X12 on the scripted world, the scripted backend being stored
    first thing. *)
Lemma ready_holder_serves_witness :
  existsb (Holder.is_set (Indexer Script.t)) [] = false /\
  exists indexer,
    snd (Holder.get (Indexer Script.t) 1%nat
           (fst (Holder.run (Indexer Script.t) Holder.newIndexerHolder
                            ([] ++ [Holder.OpSet _ (Some Script.indexer)]))))
      = Holder.GetReturns (Indexer Script.t) indexer /\
    IsAvailable indexer Script.quiet
      = (fst (Ping Script.indexer Script.quiet),
         snd (Ping Script.indexer Script.quiet),
         [EvPing (fst (Ping Script.indexer Script.quiet))]) /\
    calls (SearchIssuesByKeyword indexer [7] "login" Script.quiet)
      = [EvSearch "login" [7] 50 0] /\
    world (SearchIssuesByKeyword indexer [7] "login" Script.quiet)
      = snd (Search Script.indexer "login" [7] 50 0 Script.quiet).
Proof.
  split; [reflexivity|].
  exact (ready_holder_serves [] [] Script.indexer 1%nat [7] "login"
           Script.quiet eq_refl).
Defined.


(** X14 on the failing database. *)
Lemma UpdateRepoIndexer_stops_on_error_witness :
  snd (fst (Issues Faulty.env 7 Script.quiet)) = Some "db down"%string /\
  calls (UpdateRepoIndexer 0 Faulty.env Script.the_queue (Repository.mk 7)
                           Script.quiet)
  = [EvIssues 7 (Some "db down"%string)].
Proof.
  split; [reflexivity|].
  exact (proj1 (UpdateRepoIndexer_stops_on_error 0 Faulty.env Script.the_queue
                  (Repository.mk 7) Script.quiet)
               "db down"%string eq_refl).
Defined.

(** X17 on the scripted repositories: the run ends on the fetch of the
    empty third page. *)
Lemma populator_returns_on_cancel_or_last_page_witness :
  let r := populate_pages 0 Script.env Script.the_queue 3 1
                          (Script.populated false) in
  result r = Some tt /\
  exists pre,
    calls r = pre ++ [EvCtxDone true] \/
    exists p, calls r = pre ++ [EvSearchRepositoryByName p O None].
Proof.
  intros r. split; [reflexivity|].
  exact (populator_returns_on_cancel_or_last_page 0 Script.env
           Script.the_queue 3 1 (Script.populated false) eq_refl).
Defined.

(** X19 on the failing database: five iterations, five fetches. *)
Lemma populator_spins_on_failing_database_witness :
  (forall w, ctxDone Faulty.env w = false) /\
  (forall page w,
      snd (fst (SearchRepositoryByName Faulty.env page w)) <> None) /\
  result (populate_pages 0 Faulty.env Script.the_queue 5 1 Script.quiet)
    = None /\
  fetched_pages
    (calls (populate_pages 0 Faulty.env Script.the_queue 5 1 Script.quiet))
    = consecutive 1 5 /\
  issues_calls
    (calls (populate_pages 0 Faulty.env Script.the_queue 5 1 Script.quiet))
    = [] /\
  pushed
    (calls (populate_pages 0 Faulty.env Script.the_queue 5 1 Script.quiet))
    = [].
Proof.
  assert (Hctx : forall w, ctxDone Faulty.env w = false)
    by (intros w; reflexivity).
  assert (Hdb : forall page w,
             snd (fst (SearchRepositoryByName Faulty.env page w)) <> None)
    by (intros page w; discriminate).
  split; [exact Hctx|]. split; [exact Hdb|].
  exact (populator_spins_on_failing_database 0 Faulty.env Script.the_queue
           Hctx Hdb 5%nat 1 Script.quiet).
Defined.

(** X21 on an embedded index whose initialisation panics. *)
Lemma startup_fatal_paths_witness :
  let r := Startup.init_backend nat "bleve" Startup.BlevePanic None
                                (false, None) 9%nat Holder.newIndexerHolder in
  Holder.indexer nat Holder.newIndexerHolder = None /\
  Startup.fatal nat r = true /\
  Holder.get nat 1%nat (Startup.holder nat r)
  = (Startup.holder nat r, Holder.GetReturns nat None).
Proof.
  intros r. split; [reflexivity|]. split; [reflexivity|].
  exact (startup_fatal_paths "bleve" Startup.BlevePanic None (false, None)
           9%nat Holder.newIndexerHolder 1%nat eq_refl eq_refl).
Defined.

(** ** Redelivery *)

Section HandlerRetry.

Context {W : Type}.
Variable ix : Indexer W.

(** X22.  Handing a non-empty residual back to the handler completes
    the batch once the backend accepts everything: if in the second
    run no [Delete] and no [Index] call fails, that run deletes for
    every delete record of the residual, indexes in one call exactly
    the upsert records of the original batch, and leaves nothing to
    redeliver. *)
Theorem handler_retry_completes (data : list Datum) (w w2 : W) :
  result (handler (Some ix) data w) <> [] ->
  failures (calls (handler (Some ix) (result (handler (Some ix) data w)) w2))
    = O ->
  result (handler (Some ix) (result (handler (Some ix) data w)) w2) = [] /\
  index_calls
    (calls (handler (Some ix) (result (handler (Some ix) data w)) w2))
    = [upsert_records data] /\
  delete_calls
    (calls (handler (Some ix) (result (handler (Some ix) data w)) w2))
    = map IndexerData.IDs
          (delete_records (result (handler (Some ix) data w))).
Proof.
  intros Hne Hclean.
  assert (Hups : upsert_records (result (handler (Some ix) data w))
                 = upsert_records data).
  { destruct (handler_cases ix data w) as (u & w1 & l1 & HL & Hend).
    destruct (handler_loop_spec ix data _ _ _ _ _ _ _ HL) as (_ & _ & _ & Ht).
    destruct (Ht []) as (A & _). cbn in A.
    remember (result (handler (Some ix) data w)) as residual eqn:Hr.
    remember (calls (handler (Some ix) data w)) as log eqn:Hl.
    clear Hr Hl Hclean.
    destruct Hend as [Hu | Hu | e0 alive Hu].
    - rewrite upsert_records_app, A, upsert_records_dead_deletes.
      apply upsert_records_of_upserts.
    - congruence.
    - destruct alive; [congruence|apply upsert_records_of_upserts]. }
  remember (result (handler (Some ix) data w)) as batch eqn:Hbatch.
  clear Hbatch Hne.
  destruct (handler_cases ix batch w2) as (u & w3 & l3 & HL & Hend).
  destruct (handler_loop_probes ix batch _ _ _ _ _ _ _ HL) as [_ B].
  destruct (handler_loop_spec ix batch _ _ _ _ _ _ _ HL) as (_ & Hd & _ & Ht).
  remember (result (handler (Some ix) batch w2)) as residual eqn:Hr.
  remember (calls (handler (Some ix) batch w2)) as log eqn:Hl.
  clear Hr Hl.
  destruct Hend as [Hu | Hu | e0 alive Hu].
  - exfalso. apply Hu. apply B. exact Hclean.
  - destruct (Ht [EvIndex (upsert_records batch) None]) as (_ & Bd & C & _).
    rewrite Bd, C, Hd, Hups. cbn. rewrite app_nil_r. auto.
  - exfalso. rewrite failures_app in Hclean. cbn in Hclean. lia.
Qed.

End HandlerRetry.

(** X22 on a delete followed by an upsert: the first run meets a dead
    backend, the second one a backend that accepts everything. *)
Lemma handler_retry_completes_witness :
  let w := Script.with_backend [Some "down"%string] [false] [] in
  let first := result (handler (Some Script.indexer)
                               Script.delete_then_upsert w) in
  let second := handler (Some Script.indexer) first Script.quiet in
  first <> [] /\
  failures (calls second) = O /\
  result second = [] /\
  index_calls (calls second) = [upsert_records Script.delete_then_upsert] /\
  delete_calls (calls second)
  = map IndexerData.IDs (delete_records first).
Proof.
  intros w first second.
  assert (H : first <> []) by (vm_compute; discriminate).
  split; [exact H|]. split; [reflexivity|].
  exact (handler_retry_completes Script.indexer Script.delete_then_upsert
           w Script.quiet H eq_refl).
Defined.
